(** * reddit-mastermind: planning and validation engine

    Shallow embedding of the TypeScript sources
    - [src/utils/date.ts]              (timestamp model)
    - [src/lib/algorithm/keyword-strategy.ts], [subreddit-strategy.ts],
      [persona-matcher.ts]             (the three rotators)
    - [src/lib/algorithm/content-generator.ts] (the orchestrator)
    - [src/lib/algorithm/validators.ts] (business-rule validation)

    Modelling conventions.
    - A JavaScript [Date] is its local wall-clock time in milliseconds
      (a [Z]), in a time zone without daylight-saving shifts, so that
      date-fns' [addDays], [setHours], ... are plain arithmetic.
    - One call of [Math.random()] yields a rational [n/d] with
      [0 <= n < d] (a [draw]); the run reads the draws in order from a
      source [rng : nat -> draw], the position being part of the state.
    - A JS [Map] is an association list kept in insertion order.
    - JS numbers used as counters and indices are [Z].
    - Validation messages are values of an inductive type carrying the
      data interpolated into the source's template strings. *)

From Stdlib Require Import ZArith Lia String Ascii List Bool.
From stdpp Require Import base list strings pretty.
Import ListNotations.
Open Scope Z_scope.

(* ------------------------------------------------------------------ *)
(** ** Random draws *)

Record draw := mkDraw {
  d_num : Z;
  d_den : Z;
  d_ok : (0 <=? d_num) && (d_num <? d_den) = true
}.

(** [Math.floor(Math.random() * k)] *)
Definition floor_times (k : Z) (r : draw) : Z := (k * d_num r) / d_den r.

(** [Math.random() < a / b] and [Math.random() > a / b] (with [b > 0]) *)
Definition draw_lt (r : draw) (a b : Z) : bool := d_num r * b <? a * d_den r.
Definition draw_gt (r : draw) (a b : Z) : bool := a * d_den r <? d_num r * b.

(* ------------------------------------------------------------------ *)
(** ** Local wall-clock time *)

Definition ms_minute : Z := 60000.
Definition ms_hour : Z := 3600000.
Definition ms_day : Z := 86400000.

Definition getTime (t : Z) : Z := t.
Definition getHours (t : Z) : Z := (t mod ms_day) / ms_hour.
Definition getMinutes (t : Z) : Z := (t mod ms_hour) / ms_minute.
(** Day number since 1970-01-01 (a Thursday, [getDay] = 4). *)
Definition day_number (t : Z) : Z := t / ms_day.
Definition getDay (t : Z) : Z := (day_number t + 4) mod 7.

Definition addMinutes (t m : Z) : Z := t + m * ms_minute.
Definition addHours (t h : Z) : Z := t + h * ms_hour.
Definition addDays (t n : Z) : Z := t + n * ms_day.
(** [Date.prototype.setHours(h)] / [setMinutes(m)]: only that field changes. *)
Definition setHours (t h : Z) : Z := t - getHours t * ms_hour + h * ms_hour.
Definition setMinutes (t m : Z) : Z := t - getMinutes t * ms_minute + m * ms_minute.

(** date-fns [startOfWeek(date, { weekStartsOn: 1 })] *)
Definition startOfWeek (t : Z) : Z :=
  let day := getDay t in
  let diff := (if day <? 1 then 7 else 0) + day - 1 in
  (day_number t - diff) * ms_day.

Definition isWeekend (t : Z) : bool := (getDay t =? 0) || (getDay t =? 6).

(* ------------------------------------------------------------------ *)
(** ** JS [Map] as an insertion-ordered association list *)

Fixpoint map_get {V} (m : list (string * V)) (k : string) : option V :=
  match m with
  | [] => None
  | (k', v) :: m' => if String.eqb k k' then Some v else map_get m' k
  end.

Definition map_has {V} (m : list (string * V)) (k : string) : bool :=
  match map_get m k with Some _ => true | None => false end.

(** [Map.prototype.set]: an existing key keeps its position. *)
Fixpoint map_set {V} (m : list (string * V)) (k : string) (v : V)
    : list (string * V) :=
  match m with
  | [] => [(k, v)]
  | (k', v') :: m' =>
      if String.eqb k k' then (k', v) :: m' else (k', v') :: map_set m' k v
  end.

(** Stable sort by a comparator (V8's [Array.prototype.sort] is stable);
    [lt a b] is [compare(a, b) < 0]. [x] precedes the rest of the input,
    so it is placed before the first element that is not strictly
    smaller than it. *)
Fixpoint insert_by {A} (lt : A -> A -> bool) (x : A) (l : list A) : list A :=
  match l with
  | [] => [x]
  | y :: l' => if lt y x then y :: insert_by lt x l' else x :: y :: l'
  end.

Fixpoint sort_by {A} (lt : A -> A -> bool) (l : list A) : list A :=
  match l with
  | [] => []
  | x :: l' => insert_by lt x (sort_by lt l')
  end.

(* ------------------------------------------------------------------ *)
(** ** Data model ([src/lib/ai/schemas.ts]) *)

Record Persona := mkPersona { username : string; backstory : string }.

Record Keyword := mkKeyword { keyword_id : string; keyword : string }.

Record CompanyInfo := mkCompany {
  name : string;
  website : string;
  description : string;
  subreddits : list string;
  postsPerWeek : Z
}.

Record GeneratedPost := mkPost {
  post_id : string;
  subreddit : string;
  title : string;
  body : string;
  author_username : string;
  post_timestamp : Z;
  keyword_ids : list string
}.

Record GeneratedComment := mkComment {
  comment_id : string;
  comment_post_id : string;
  parent_comment_id : option string;
  comment_text : string;
  comment_username : string;
  comment_timestamp : Z
}.

Record ContentCalendar := mkCalendar {
  weekNumber : Z;
  companyName : string;
  posts : list GeneratedPost;
  comments : list GeneratedComment;
  generatedAt : Z
}.

(** The messages of [validators.ts]; each constructor stands for one
    template string and carries what is interpolated into it (times as
    millisecond differences, ratios as numerator and denominator). *)
Inductive message :=
  | MsgOverposting (sub : string) (count : Z)
  | MsgTooSimilar (p1 p2 : string) (inter union : Z)
  | MsgModerateSimilarity (p1 p2 : string) (inter union : Z)
  | MsgUnusualTimestamp (post : string) (hour : Z)
  | MsgUnrealisticTimestamp (post : string) (hour : Z)
  | MsgNonExistentPost (comment post : string)
  | MsgBeforePost (comment : string) (diff_ms : Z)
  | MsgTooLate (comment : string) (diff_ms : Z)
  | MsgNonExistentParent (comment parent : string)
  | MsgBeforeParent (comment : string)
  | MsgRepliesTooQuickly (comment : string) (diff_ms : Z)
  | MsgDominates (user : string) (count total : Z)
  | MsgHighShare (user : string) (count total : Z)
  | MsgUnusedPersonas (users : list string)
  | MsgSelfParent (comment : string).

Record ValidationResult := mkValidation {
  isValid : bool;
  errors : list message;
  warnings : list message
}.

(* ------------------------------------------------------------------ *)
(** ** Rotator state *)

Record KeywordUsageTracker := mkKwUsage {
  kw_keywordId : string;
  usageCount : Z;
  lastUsedPostIndex : Z
}.

Record KeywordStrategy := mkKeywordStrategy {
  kw_usageTracker : list (string * KeywordUsageTracker);
  keywordCombinations : list string
}.

Record SubredditUsageTracker := mkSubUsage {
  sub_subreddit : string;
  postsThisWeek : Z;
  lastPostIndex : Z
}.

Record PersonaUsageTracker := mkPersonaUsage {
  pu_username : string;
  postCount : Z;
  commentCount : Z;
  lastUsedIndex : Z
}.

(** The mutable part of a [ContentGenerator] during [generate], plus the
    position in the random source. *)
Record gen_state := mkState {
  rng_pos : nat;
  keywordStrategy : KeywordStrategy;
  subredditStrategy : list (string * SubredditUsageTracker);
  personaMatcher : list (string * PersonaUsageTracker)
}.

Inductive gen_error :=
  | TypeError                         (* property read on [undefined] *)
  | AiError (msg : string)            (* the text-generation collaborator threw *)
  | ValidationFailed (errs : list message).

(* ------------------------------------------------------------------ *)
(** ** State and error monad *)

Definition M (A : Type) : Type := gen_state -> gen_error + (A * gen_state).

Definition retM {A} (a : A) : M A := fun st => inr (a, st).
Definition bindM {A B} (m : M A) (k : A -> M B) : M B :=
  fun st => match m st with inl e => inl e | inr (a, st') => k a st' end.
Definition throw {A} (e : gen_error) : M A := fun _ => inl e.
Definition getsM {A} (f : gen_state -> A) : M A := fun st => inr (f st, st).
Definition modifyM (f : gen_state -> gen_state) : M unit :=
  fun st => inr (tt, f st).

Notation "'let*' x ':=' m 'in' k" := (bindM m (fun x => k))
  (at level 200, x name, m at level 100, k at level 200).
Notation "m ;;; k" := (bindM m (fun _ => k))
  (at level 100, right associativity).

(** [x!] on a [Map.get]: reading a field of [undefined] throws. *)
Definition deref {A} (o : option A) : M A :=
  match o with Some a => retM a | None => throw TypeError end.

Fixpoint forM {A} (l : list A) (f : A -> M unit) : M unit :=
  match l with [] => retM tt | x :: l' => f x ;;; forM l' f end.

Definition set_rng_pos (n : nat) (st : gen_state) : gen_state :=
  mkState n (keywordStrategy st) (subredditStrategy st) (personaMatcher st).
Definition set_keywordStrategy (k : KeywordStrategy) (st : gen_state) : gen_state :=
  mkState (rng_pos st) k (subredditStrategy st) (personaMatcher st).
Definition set_subredditStrategy s (st : gen_state) : gen_state :=
  mkState (rng_pos st) (keywordStrategy st) s (personaMatcher st).
Definition set_personaMatcher p (st : gen_state) : gen_state :=
  mkState (rng_pos st) (keywordStrategy st) (subredditStrategy st) p.

Section Random.
Variable rng : nat -> draw.

(** [Math.random()] *)
Definition random : M draw :=
  fun st => inr (rng (rng_pos st), set_rng_pos (S (rng_pos st)) st).

(* ------------------------------------------------------------------ *)
(** ** [src/utils/date.ts] *)

Definition generatePostTime (weekStart postIndex totalPosts : Z) : M Z :=
  let baseDate := startOfWeek weekStart in
  let dayOffset := (postIndex * 7) / totalPosts in
  let postDate := addDays baseDate dayOffset in
  let* postDate :=
    (if isWeekend postDate
     then let* r := random in
          if draw_gt r 3 10
          then let daysUntilMonday := if getDay postDate =? 0 then 1 else 2 in
               retM (addDays postDate daysUntilMonday)
          else retM postDate
     else retM postDate) in
  let* r := random in
  let* hour :=
    (if draw_lt r 1 2
     then let* r' := random in retM (14 + floor_times 4 r')
     else let* r' := random in retM (9 + floor_times 12 r')) in
  let* r'' := random in
  let minute := floor_times 60 r'' in
  retM (setMinutes (setHours postDate hour) minute).

Definition generateFirstCommentTime (postTime : Z) : M Z :=
  let* r := random in
  let delayMinutes := 15 + floor_times 45 r in
  retM (addMinutes postTime delayMinutes).

Definition generateReplyCommentTime (parentCommentTime : Z) : M Z :=
  let* r := random in
  let delayMinutes := 5 + floor_times 25 r in
  retM (addMinutes parentCommentTime delayMinutes).

Definition generateLateCommentTime (postTime : Z) : M Z :=
  let* r1 := random in
  let delayHours := 1 + floor_times 5 r1 in
  let* r2 := random in
  let delayMinutes := floor_times 60 r2 in
  let commentTime := addHours postTime delayHours in
  retM (addMinutes commentTime delayMinutes).

(** [generateRandomBusinessHoursTime]; [now] is the reading of [new Date()]. *)
Definition generateRandomBusinessHoursTime (now : Z) : M Z :=
  let* r := random in
  let hour := 9 + floor_times 12 r in
  let* r' := random in
  let minute := floor_times 60 r' in
  retM (setMinutes (setHours now hour) minute).

End Random.

Definition getCurrentWeekStart (now : Z) : Z := startOfWeek now.

Definition adjustToBusinessHours (date : Z) : Z :=
  let hour := getHours date in
  if hour <? 6 then setHours (setMinutes date 0) 9
  else if hour >=? 23 then
    let adjusted := addDays date 1 in
    setHours (setMinutes adjusted 0) 9
  else date.

(** [Math.floor((date2 - date1) / 60000)] *)
Definition getMinutesDifference (date1 date2 : Z) : Z :=
  (getTime date2 - getTime date1) / ms_minute.

Definition isValidCommentTime (postTime commentTime : Z) : bool :=
  let diffMinutes := getMinutesDifference postTime commentTime in
  (diffMinutes >? 0) && (diffMinutes <? 7 * 24 * 60).

(* ------------------------------------------------------------------ *)
(** ** The rotators *)

Fixpoint filterM {A} (p : A -> M bool) (l : list A) : M (list A) :=
  match l with
  | [] => retM []
  | x :: l' =>
      let* b := p x in
      let* r := filterM p l' in
      retM (if b then x :: r else r)
  end.

Fixpoint mapM {A B} (f : A -> M B) (l : list A) : M (list B) :=
  match l with
  | [] => retM []
  | x :: l' => let* y := f x in let* r := mapM f l' in retM (y :: r)
  end.

(** [Array.prototype.sort()] without a comparator on strings (ASCII code
    unit order), and [join(',')]. *)
Definition sort_strings (l : list string) : list string := sort_by String.ltb l.
Definition join_comma (l : list string) : string := String.concat "," l.

Section Rotators.
Variable rng : nat -> draw.

(** *** [keyword-strategy.ts] *)

Definition getKw : M KeywordStrategy := getsM keywordStrategy.
Definition putKw (k : KeywordStrategy) : M unit := modifyM (set_keywordStrategy k).

(** [const usage = this.usageTracker.get(id)!; usage.usageCount++;
     usage.lastUsedPostIndex = postIndex;] *)
Definition bumpKeywordUsage (id : string) (postIndex : Z) : M unit :=
  let* ks := getKw in
  let* usage := deref (map_get (kw_usageTracker ks) id) in
  putKw (mkKeywordStrategy
           (map_set (kw_usageTracker ks) id
              (mkKwUsage (kw_keywordId usage) (usageCount usage + 1) postIndex))
           (keywordCombinations ks)).

Definition keywordUsageLt (a b : Keyword * KeywordUsageTracker) : bool :=
  let ua := snd a in let ub := snd b in
  if negb (usageCount ua =? usageCount ub) then usageCount ua <? usageCount ub
  else lastUsedPostIndex ua <? lastUsedPostIndex ub.

Definition combination_of (ks : list Keyword) : string :=
  join_comma (sort_strings (map keyword_id ks)).

(** First loop: accept a keyword unless the combination was already seen
    (the first pick is never skipped); [break] once the target is met. *)
Fixpoint firstPass (keywordCount postIndex : Z)
    (l : list (Keyword * KeywordUsageTracker)) (selected : list Keyword)
    : M (list Keyword) :=
  match l with
  | [] => retM selected
  | (kw, _) :: l' =>
      if Z.of_nat (length selected) >=? keywordCount then retM selected
      else
        let potentialCombination := combination_of (selected ++ [kw]) in
        let* ks := getKw in
        if (length selected =? 0)%nat
           || negb (existsb (String.eqb potentialCombination) (keywordCombinations ks))
        then bumpKeywordUsage (keyword_id kw) postIndex ;;;
             firstPass keywordCount postIndex l' (selected ++ [kw])
        else firstPass keywordCount postIndex l' selected
  end.

(** Second loop: fill up with least-used keywords not yet selected. *)
Fixpoint secondPass (keywordCount postIndex : Z)
    (l : list (Keyword * KeywordUsageTracker)) (selected : list Keyword)
    : M (list Keyword) :=
  match l with
  | [] => retM selected
  | (kw, _) :: l' =>
      if Z.of_nat (length selected) >=? keywordCount then retM selected
      else if negb (existsb (fun k => String.eqb (keyword_id k) (keyword_id kw)) selected)
      then bumpKeywordUsage (keyword_id kw) postIndex ;;;
           secondPass keywordCount postIndex l' (selected ++ [kw])
      else secondPass keywordCount postIndex l' selected
  end.

Definition initKeywordUsage (kw : Keyword) : M unit :=
  let* ks := getKw in
  if map_has (kw_usageTracker ks) (keyword_id kw) then retM tt
  else putKw (mkKeywordStrategy
                (map_set (kw_usageTracker ks) (keyword_id kw)
                   (mkKwUsage (keyword_id kw) 0 (-1)))
                (keywordCombinations ks)).

Definition selectKeywordsForPost (availableKeywords : list Keyword)
    (postIndex : Z) (subreddit : string) : M (list Keyword) :=
  forM availableKeywords initKeywordUsage ;;;
  let* r := random rng in
  let keywordCount := if draw_lt r 6 10 then 2 else 3 in
  let* ks := getKw in
  let* withUsage :=
    mapM (fun kw => let* u := deref (map_get (kw_usageTracker ks) (keyword_id kw)) in
                    retM (kw, u)) availableKeywords in
  let sortedKeywords := sort_by keywordUsageLt withUsage in
  let* selectedKeywords := firstPass keywordCount postIndex sortedKeywords [] in
  let* selectedKeywords :=
    (if Z.of_nat (length selectedKeywords) <? keywordCount
     then secondPass keywordCount postIndex sortedKeywords selectedKeywords
     else retM selectedKeywords) in
  let combination := combination_of selectedKeywords in
  let* ks := getKw in
  let combos := keywordCombinations ks in
  putKw (mkKeywordStrategy (kw_usageTracker ks)
           (if existsb (String.eqb combination) combos then combos
            else combos ++ [combination])) ;;;
  retM selectedKeywords.

(** *** [subreddit-strategy.ts] *)

Definition getSub : M (list (string * SubredditUsageTracker)) :=
  getsM subredditStrategy.
Definition putSub t : M unit := modifyM (set_subredditStrategy t).

Definition selectSubreddit (subreddits : list string) (postIndex totalPosts : Z)
    : M string :=
  forM subreddits (fun sub =>
    let* t := getSub in
    if map_has t sub then retM tt
    else putSub (map_set t sub (mkSubUsage sub 0 (-1)))) ;;;
  let* t := getSub in
  let* availableSubreddits :=
    filterM (fun sub => let* usage := deref (map_get t sub) in
                        retM (postsThisWeek usage =? 0)) subreddits in
  let* selectedSubreddit :=
    (match availableSubreddits with
     | [] =>
         let sortedByLastUse :=
           sort_by (fun a b => lastPostIndex a <? lastPostIndex b) (map snd t) in
         let* first := deref (head sortedByLastUse) in
         retM (sub_subreddit first)
     | _ =>
         let index := Z.rem postIndex (Z.of_nat (length availableSubreddits)) in
         if index <? 0 then throw TypeError
         else deref (nth_error availableSubreddits (Z.to_nat index))
     end) in
  let* t := getSub in
  let* usage := deref (map_get t selectedSubreddit) in
  putSub (map_set t selectedSubreddit
            (mkSubUsage (sub_subreddit usage) (postsThisWeek usage + 1) postIndex)) ;;;
  retM selectedSubreddit.

(** [isOverposted] and [getOverpostedSubreddits], on the tracker. *)
Definition isOverposted (t : list (string * SubredditUsageTracker)) (subreddit : string)
    : bool :=
  match map_get t subreddit with
  | Some usage => 1 <? postsThisWeek usage
  | None => false
  end.

Definition getOverpostedSubreddits (t : list (string * SubredditUsageTracker))
    : list string :=
  map sub_subreddit (List.filter (fun usage => 1 <? postsThisWeek usage) (map snd t)).

(** *** [persona-matcher.ts] *)

Definition getPm : M (list (string * PersonaUsageTracker)) := getsM personaMatcher.
Definition putPm t : M unit := modifyM (set_personaMatcher t).

Definition selectPostAuthor (personas : list Persona) (postIndex : Z) : M Persona :=
  forM personas (fun p =>
    let* t := getPm in
    if map_has t (username p) then retM tt
    else putPm (map_set t (username p) (mkPersonaUsage (username p) 0 0 (-1)))) ;;;
  let* t := getPm in
  let* withUsage :=
    mapM (fun p => let* u := deref (map_get t (username p)) in retM (p, u)) personas in
  let sortedPersonas :=
    sort_by (fun a b =>
               if negb (postCount (snd a) =? postCount (snd b))
               then postCount (snd a) <? postCount (snd b)
               else lastUsedIndex (snd a) <? lastUsedIndex (snd b)) withUsage in
  let* first := deref (head sortedPersonas) in
  let selectedPersona := fst first in
  let* t := getPm in
  let* usage := deref (map_get t (username selectedPersona)) in
  putPm (map_set t (username selectedPersona)
           (mkPersonaUsage (pu_username usage) (postCount usage + 1)
              (commentCount usage) postIndex)) ;;;
  retM selectedPersona.

(** The usage of a persona outside the tracker is [undefined]; the sort
    comparator (called as soon as there are two candidates) or the update
    loop (otherwise) reads a field of it and throws. *)
Definition selectCommentAuthors (personas : list Persona) (postAuthor : Persona)
    (postIndex : Z) : M (list Persona) :=
  let availablePersonas :=
    List.filter (fun p => negb (String.eqb (username p) (username postAuthor))) personas in
  match availablePersonas with
  | [] => retM [postAuthor]
  | _ =>
    let* r := random rng in
    (* [commentCount] in the source; primed to keep the field name free *)
    let commentCount' :=
      Z.min (2 + floor_times 3 r) (Z.of_nat (length availablePersonas)) in
    let* t := getPm in
    let* withUsage :=
      mapM (fun p => let* u := deref (map_get t (username p)) in retM (p, u))
        availablePersonas in
    let sortedPersonas :=
      sort_by (fun a b =>
                 if negb (commentCount (snd a) =? commentCount (snd b))
                 then commentCount (snd a) <? commentCount (snd b)
                 else lastUsedIndex (snd a) <? lastUsedIndex (snd b)) withUsage in
    let selectedPersonas := map fst (firstn (Z.to_nat commentCount') sortedPersonas) in
    forM selectedPersonas (fun p =>
      let* t := getPm in
      let* usage := deref (map_get t (username p)) in
      putPm (map_set t (username p)
               (mkPersonaUsage (pu_username usage) (postCount usage)
                  (commentCount usage + 1) postIndex))) ;;;
    let* r2 := random rng in
    if draw_lt r2 7 10 && negb (length selectedPersonas =? 0)%nat
    then
      let* t := getPm in
      let* postAuthorUsage := deref (map_get t (username postAuthor)) in
      putPm (map_set t (username postAuthor)
               (mkPersonaUsage (pu_username postAuthorUsage) (postCount postAuthorUsage)
                  (commentCount postAuthorUsage + 1) (lastUsedIndex postAuthorUsage))) ;;;
      retM (selectedPersonas ++ [postAuthor])
    else retM selectedPersonas
  end.

(** [isPersonaDistributionBalanced], on the tracker. [Math.max] of the
    empty list ([-Infinity]) is never reached: the total is then 0. *)
Definition isPersonaDistributionBalanced (t : list (string * PersonaUsageTracker)) : bool :=
  let contents := map (fun usage => postCount (snd usage) + commentCount (snd usage)) t in
  let totalContent := fold_left Z.add contents 0 in
  if totalContent =? 0 then true
  else
    match contents with
    | [] => true
    | c :: cs =>
        let maxContent := fold_left Z.max cs c in
        (* maxContent / totalContent <= 0.5 *)
        if 0 <? totalContent then 2 * maxContent <=? totalContent
        else totalContent <=? 2 * maxContent
    end.

End Rotators.

(* ------------------------------------------------------------------ *)
(** ** [validators.ts] *)

(** ASCII [toLowerCase]. *)
Definition lower_ascii (c : ascii) : ascii :=
  let n := nat_of_ascii c in
  if (65 <=? n)%nat && (n <=? 90)%nat then ascii_of_nat (n + 32) else c.

Fixpoint toLowerCase (s : string) : string :=
  match s with
  | EmptyString => EmptyString
  | String c s' => String (lower_ascii c) (toLowerCase s')
  end.

(** ASCII members of the class [\s]. *)
Definition is_space (c : ascii) : bool :=
  let n := nat_of_ascii c in (n =? 32)%nat || ((9 <=? n)%nat && (n <=? 13)%nat).

(** Pieces of [s] between whitespace characters. [split(/\s+/)] differs
    only by the empty pieces inside runs of whitespace, which every caller
    drops with its [length > 3] filter. *)
Fixpoint split_ws_go (s : string) (cur : string) : list string :=
  match s with
  | EmptyString => [cur]
  | String c s' =>
      if is_space c then cur :: split_ws_go s' EmptyString
      else split_ws_go s' (cur ++ String c EmptyString)
  end.
Definition split_ws (s : string) : list string := split_ws_go s EmptyString.

(** [new Set(xs)]: first occurrences, in order. *)
Fixpoint dedup (l : list string) : list string :=
  match l with
  | [] => []
  | x :: l' => x :: List.filter (fun y => negb (String.eqb x y)) (dedup l')
  end.

Definition str_mem (x : string) (l : list string) : bool := existsb (String.eqb x) l.

Definition words_of (text : string) : list string :=
  dedup (List.filter (fun w => (3 <? String.length w)%nat) (split_ws text)).

(** [calculateTextSimilarity]: the Jaccard ratio as (numerator, denominator). *)
Definition calculateTextSimilarity (text1 text2 : string) : Z * Z :=
  let words1 := words_of text1 in
  let words2 := words_of text2 in
  match words1, words2 with
  | [], [] => (1, 1)
  | [], _ | _, [] => (0, 1)
  | _, _ =>
      let intersection := List.filter (fun w => str_mem w words2) words1 in
      let union := dedup (words1 ++ words2) in
      (Z.of_nat (length intersection), Z.of_nat (length union))
  end.

Definition inc_count (m : list (string * Z)) (k : string) : list (string * Z) :=
  let count := match map_get m k with Some c => c | None => 0 end in
  map_set m k (count + 1).

Definition validateNoOverposting (posts : list GeneratedPost) : ValidationResult :=
  let subredditCounts := fold_left (fun m p => inc_count m (subreddit p)) posts [] in
  let errors :=
    flat_map (fun '(sub, count) =>
                if 1 <? count then [MsgOverposting sub count] else [])
      subredditCounts in
  mkValidation (length errors =? 0)%nat errors [].

Fixpoint pairs_from {A} (l : list A) : list (A * A) :=
  match l with
  | [] => []
  | x :: l' => map (fun y => (x, y)) l' ++ pairs_from l'
  end.

Definition validateTopicDiversity (posts : list GeneratedPost) : ValidationResult :=
  let judged :=
    map (fun '(pi, pj) =>
           let '(i, u) := calculateTextSimilarity (toLowerCase (title pi))
                                                   (toLowerCase (title pj)) in
           if 7 * u <? 10 * i then ([MsgTooSimilar (post_id pi) (post_id pj) i u], [])
           else if u <? 2 * i then ([], [MsgModerateSimilarity (post_id pi) (post_id pj) i u])
           else ([], []))
      (pairs_from posts) in
  let errors := flat_map fst judged in
  let warnings := flat_map snd judged in
  mkValidation (length errors =? 0)%nat errors warnings.

(** JavaScript truthiness of a [string | null]. *)
Definition truthy (o : option string) : bool :=
  match o with Some s => negb (String.eqb s "") | None => false end.

Definition find_post (posts : list GeneratedPost) (id : string) :=
  find (fun p => String.eqb (post_id p) id) posts.
Definition find_comment (comments : list GeneratedComment) (id : string) :=
  find (fun c => String.eqb (comment_id c) id) comments.

(** The messages of one comment in [validateTimestamps]: (errors, warnings). *)
Definition check_comment_time (posts : list GeneratedPost)
    (comments : list GeneratedComment) (comment : GeneratedComment)
    : list message * list message :=
  match find_post posts (comment_post_id comment) with
  | None => ([MsgNonExistentPost (comment_id comment) (comment_post_id comment)], [])
  | Some post =>
      let e1 :=
        if negb (isValidCommentTime (post_timestamp post) (comment_timestamp comment))
        then
          let timeDiff := getTime (comment_timestamp comment) - getTime (post_timestamp post) in
          if timeDiff <? 0 then [MsgBeforePost (comment_id comment) (- timeDiff)]
          else [MsgTooLate (comment_id comment) timeDiff]
        else [] in
      match parent_comment_id comment with
      | Some parent =>
          if truthy (Some parent) then
            match find_comment comments parent with
            | None => (e1 ++ [MsgNonExistentParent (comment_id comment) parent], [])
            | Some parentComment =>
                let replyTime := getTime (comment_timestamp comment)
                                 - getTime (comment_timestamp parentComment) in
                if replyTime <? 0 then (e1 ++ [MsgBeforeParent (comment_id comment)], [])
                else if replyTime <? ms_minute
                then (e1, [MsgRepliesTooQuickly (comment_id comment) replyTime])
                else (e1, [])
            end
          else (e1, [])
      | None => (e1, [])
      end
  end.

Definition validateTimestamps (posts : list GeneratedPost)
    (comments : list GeneratedComment) : ValidationResult :=
  let postChecks :=
    map (fun post =>
           let hour := getHours (post_timestamp post) in
           ((if (2 <=? hour) && (hour <? 5)
             then [MsgUnrealisticTimestamp (post_id post) hour] else []),
            (if hour <? 6 then [MsgUnusualTimestamp (post_id post) hour] else [])))
      posts in
  let commentChecks := map (check_comment_time posts comments) comments in
  let errors := flat_map fst postChecks ++ flat_map fst commentChecks in
  let warnings := flat_map snd postChecks ++ flat_map snd commentChecks in
  mkValidation (length errors =? 0)%nat errors warnings.

Definition validatePersonaDistribution (posts : list GeneratedPost)
    (comments : list GeneratedComment) : ValidationResult :=
  let personaCounts := fold_left (fun m p => inc_count m (author_username p)) posts [] in
  let personaCounts :=
    fold_left (fun m c => inc_count m (comment_username c)) comments personaCounts in
  let totalContent := Z.of_nat (length posts + length comments) in
  (* percentage = count / totalContent * 100 *)
  let personaStats := sort_by (fun a b => snd b <? snd a) personaCounts in
  let errors :=
    match personaStats with
    | (user, count) :: _ =>
        if totalContent * 50 <? count * 100 then [MsgDominates user count totalContent]
        else []
    | [] => []
    end in
  let w1 :=
    match personaStats with
    | (user, count) :: _ :: _ =>
        if totalContent * 40 <? count * 100 then [MsgHighShare user count totalContent]
        else []
    | _ => []
    end in
  let w2 :=
    if existsb (fun s => snd s =? 0) personaStats
    then [MsgUnusedPersonas (map fst (List.filter (fun s => snd s =? 0) personaStats))]
    else [] in
  mkValidation (length errors =? 0)%nat errors (w1 ++ w2).

Definition validateCommentThreads (comments : list GeneratedComment) : ValidationResult :=
  let errors :=
    flat_map (fun comment =>
      match parent_comment_id comment with
      | Some parent =>
          if truthy (Some parent) then
            (if existsb (fun c => String.eqb (comment_id c) parent) comments then []
             else [MsgNonExistentParent (comment_id comment) parent])
            ++ (if String.eqb (comment_id comment) parent
                then [MsgSelfParent (comment_id comment)] else [])
          else []
      | None => []
      end) comments in
  mkValidation (length errors =? 0)%nat errors [].

Definition validateContentCalendar (posts : list GeneratedPost)
    (comments : list GeneratedComment) : ValidationResult :=
  let results := [validateNoOverposting posts;
                  validateTopicDiversity posts;
                  validateTimestamps posts comments;
                  validatePersonaDistribution posts comments;
                  validateCommentThreads comments] in
  mkValidation (forallb isValid results)
               (flat_map errors results) (flat_map warnings results).

(** [fixTimestampIssues] mutates the post and comment objects in place;
    here it returns the updated arrays. Posts are all adjusted before the
    comments are looked at. *)
Definition fixTimestampIssues (posts : list GeneratedPost)
    (comments : list GeneratedComment)
    : list GeneratedPost * list GeneratedComment :=
  let posts' :=
    map (fun p => mkPost (post_id p) (subreddit p) (title p) (body p)
                    (author_username p) (adjustToBusinessHours (post_timestamp p))
                    (keyword_ids p)) posts in
  let comments' :=
    map (fun c =>
           match find_post posts' (comment_post_id c) with
           | Some post =>
               if comment_timestamp c <? post_timestamp post
               then mkComment (comment_id c) (comment_post_id c) (parent_comment_id c)
                      (comment_text c) (comment_username c)
                      (getTime (post_timestamp post) + 15 * 60 * 1000)
               else c
           | None => c
           end) comments in
  (posts', comments').

(* ------------------------------------------------------------------ *)
(** ** [content-generator.ts] *)

Record CalendarInput := mkInput {
  company : CompanyInfo;
  personas : list Persona;
  keywords : list Keyword;
  inputWeekNumber : option Z
}.

Record GeneratePostRequest := mkPostRequest {
  req_persona : Persona;
  req_subreddit : string;
  req_keywords : list Keyword;
  req_company : CompanyInfo;
  req_icpSegment : option string
}.

Inductive CommentPosition := First | Reply | Late.

Record GenerateCommentRequest := mkCommentRequest {
  creq_persona : Persona;
  creq_post : string * string * string;          (* title, body, author_username *)
  creq_parentComment : option (string * string); (* text, username *)
  creq_company : CompanyInfo;
  commentPosition : CommentPosition;
  creq_shouldMentionProduct : bool
}.

Record PostPlan := mkPostPlan {
  postIndex : Z;
  plan_subreddit : string;
  author : Persona;
  timestamp : Z;
  plan_keywords : list Keyword;
  icpSegment : option string
}.

Record CommentPlan := mkCommentPlan {
  position : CommentPosition;
  cplan_author : Persona;
  parentCommentId : option string;
  shouldMentionProduct : bool;
  timingOffset : string
}.

(** [String.prototype.includes] *)
Fixpoint str_prefix (p s : string) : bool :=
  match p, s with
  | EmptyString, _ => true
  | String c p', String d s' => Ascii.eqb c d && str_prefix p' s'
  | String _ _, EmptyString => false
  end.

Fixpoint includes (s sub : string) : bool :=
  str_prefix sub s ||
  match s with EmptyString => false | String _ s' => includes s' sub end.

Definition icpMappings : list (string * list string) :=
  [("consultants", ["consulting"; "consultant"; "professional services"]);
   ("educators", ["teacher"; "professor"; "education"; "university"]);
   ("marketers", ["marketing"; "marketer"; "brand"; "growth"]);
   ("sales teams", ["sales"; "business development"; "account executive"]);
   ("executives", ["executive"; "ceo"; "leadership"; "c-suite"]);
   ("designers", ["designer"; "design"; "creative"]);
   ("developers", ["developer"; "engineer"; "programmer"; "software"])].

Definition mapICPToSubreddit (subreddit companyDescription : string) : option string :=
  let description := toLowerCase companyDescription in
  let subredditLower := toLowerCase subreddit in
  option_map fst
    (find (fun '(segment, kws) =>
             existsb (includes subredditLower) kws
             && existsb (includes description) kws) icpMappings).

(** Synthetic ids [P${n}] and [C${n}]. *)
Definition post_id_of (n : nat) : string := "P" +:+ pretty n.
Definition comment_id_of (n : nat) : string := "C" +:+ pretty n.

Definition with_strategies_reset (st : gen_state) : gen_state :=
  mkState (rng_pos st) (mkKeywordStrategy [] []) [] [].

Section Generator.
Variable rng : nat -> draw.
(** The text-generation collaborator; [inl] is a thrown error. *)
Variable aiGeneratePost : GeneratePostRequest -> string + (string * string).
Variable aiGenerateComment : GenerateCommentRequest -> string + string.

Definition liftAi {A} (r : string + A) : M A :=
  match r with inl e => throw (AiError e) | inr a => retM a end.

Definition createWeeklyPostPlan (input : CalendarInput) (weekStart : Z)
    : M (list PostPlan) :=
  let company := company input in
  let postsPerWeek := postsPerWeek company in
  mapM (fun i =>
          let i := Z.of_nat i in
          let* subreddit := selectSubreddit (subreddits company) i postsPerWeek in
          let* selectedKeywords :=
            selectKeywordsForPost rng (keywords input) i subreddit in
          let* author := selectPostAuthor (personas input) i in
          let* timestamp := generatePostTime rng weekStart i postsPerWeek in
          let icpSegment := mapICPToSubreddit subreddit (description company) in
          retM (mkPostPlan i subreddit author timestamp selectedKeywords icpSegment))
    (seq 0 (Z.to_nat postsPerWeek)).

Definition generatePosts (plans : list PostPlan) (input : CalendarInput)
    : M (list GeneratedPost) :=
  mapM (fun plan =>
          let* result :=
            liftAi (aiGeneratePost
                      (mkPostRequest (author plan) (plan_subreddit plan)
                         (plan_keywords plan) (company input) (icpSegment plan))) in
          retM (mkPost (post_id_of (Z.to_nat (postIndex plan + 1)))
                  (plan_subreddit plan) (fst result) (snd result)
                  (username (author plan)) (timestamp plan)
                  (map keyword_id (plan_keywords plan))))
    plans.

Definition createCommentPlans (personas : list Persona) (targetCount : Z)
    (postAuthor : Persona) : M (list CommentPlan) :=
  let actualCount := Z.min targetCount (Z.of_nat (length personas)) in
  mapM (fun '(i, persona) =>
          let* decision :=
            (if (i =? 0)%nat then
               let* r := random rng in retM (First, None, draw_lt r 7 10)
             else
               let* second :=
                 (if (i =? 1)%nat then let* r := random rng in retM (draw_lt r 6 10)
                  else retM false) in
               if second then
                 let* r := random rng in retM (Reply, Some "C1", draw_lt r 3 10)
               else if String.eqb (username persona) (username postAuthor) then
                 retM (Reply, Some "C1", false)
               else
                 let* r := random rng in retM (Late, None, draw_lt r 4 10)) in
          let '(position, parentCommentId, shouldMentionProduct) := decision in
          retM (mkCommentPlan position persona parentCommentId shouldMentionProduct
                  (match position with
                   | First => "+21min" | Reply => "+16min" | Late => "+2h" end)))
    (combine (seq 0 (Z.to_nat actualCount)) personas).

(** The inner loop of [generateComments], threading [allComments] and
    [commentIdCounter]. *)
Fixpoint generateThread (input : CalendarInput) (post : GeneratedPost)
    (commentPlans : list CommentPlan) (allComments : list GeneratedComment)
    (commentIdCounter : nat) : M (list GeneratedComment * nat) :=
  match commentPlans with
  | [] => retM (allComments, commentIdCounter)
  | commentPlan :: rest =>
      let parentComment :=
        match parentCommentId commentPlan with
        | Some id => if truthy (Some id) then find_comment allComments id else None
        | None => None
        end in
      let* text :=
        liftAi (aiGenerateComment
                  (mkCommentRequest (cplan_author commentPlan)
                     (title post, body post, author_username post)
                     (option_map (fun c => (comment_text c, comment_username c))
                        parentComment)
                     (company input) (position commentPlan)
                     (shouldMentionProduct commentPlan))) in
      let* commentTimestamp :=
        (match position commentPlan, parentComment with
         | First, _ => generateFirstCommentTime rng (post_timestamp post)
         | Reply, Some parent => generateReplyCommentTime rng (comment_timestamp parent)
         | _, _ => generateLateCommentTime rng (post_timestamp post)
         end) in
      let comment :=
        mkComment (comment_id_of commentIdCounter) (post_id post)
          (parentCommentId commentPlan) text (username (cplan_author commentPlan))
          commentTimestamp in
      generateThread input post rest (allComments ++ [comment]) (S commentIdCounter)
  end.

Fixpoint generateCommentsLoop (input : CalendarInput) (i : nat)
    (postsAndPlans : list (GeneratedPost * PostPlan))
    (allComments : list GeneratedComment) (commentIdCounter : nat)
    : M (list GeneratedComment) :=
  match postsAndPlans with
  | [] => retM allComments
  | (post, plan) :: rest =>
      let* r := random rng in
      let commentCount := 2 + floor_times 3 r in
      let* commentingPersonas :=
        selectCommentAuthors rng (personas input) (author plan) (Z.of_nat i) in
      let* commentPlans := createCommentPlans commentingPersonas commentCount (author plan) in
      let* thread := generateThread input post commentPlans allComments commentIdCounter in
      let '(allComments, commentIdCounter) := thread in
      generateCommentsLoop input (S i) rest allComments commentIdCounter
  end.

(** [postPlans[i]] is defined for every post: [generatePosts] made one
    post per plan. *)
Definition generateComments (posts : list GeneratedPost) (postPlans : list PostPlan)
    (input : CalendarInput) : M (list GeneratedComment) :=
  generateCommentsLoop input 0 (combine posts postPlans) [] 1%nat.

(** [generate]; [startClock] and [endClock] are the two readings of
    [new Date()] (in [getCurrentWeekStart] and for [generatedAt]). *)
Definition generate (input : CalendarInput) (startClock endClock : Z)
    : M ContentCalendar :=
  modifyM with_strategies_reset ;;;
  let weekStart := getCurrentWeekStart startClock in
  let* postPlans := createWeeklyPostPlan input weekStart in
  let* posts := generatePosts postPlans input in
  let* comments := generateComments posts postPlans input in
  let '(posts, comments) := fixTimestampIssues posts comments in
  let validation := validateContentCalendar posts comments in
  if negb (isValid validation) then throw (ValidationFailed (errors validation))
  else
    retM (mkCalendar
            (match inputWeekNumber input with
             | Some w => if w =? 0 then 1 else w
             | None => 1 end)
            (name (company input)) posts comments endClock).

End Generator.

(* ------------------------------------------------------------------ *)
(** ** Concrete inputs *)

Definition dr (n d : Z) : draw :=
  match ((0 <=? n) && (n <? d)) as b return ((0 <=? n) && (n <? d) = b -> draw) with
  | true => fun H => mkDraw n d H
  | false => fun _ => mkDraw 0 1 eq_refl
  end eq_refl.

(** A random source replaying [l], then [0]. *)
Definition rng_of (l : list draw) (n : nat) : draw := nth n l (dr 0 1).

Definition rng_zero : nat -> draw := fun _ => dr 0 1.

Definition init_state : gen_state := mkState 0 (mkKeywordStrategy [] []) [] [].

Definition riley : Persona := mkPersona "riley_ops" "ops lead".
Definition jordan : Persona := mkPersona "jordan_consults" "consultant".
Definition emily : Persona := mkPersona "emily_econ" "economist".

Definition K1 : Keyword := mkKeyword "K1" "best ai presentation maker".
Definition K2 : Keyword := mkKeyword "K2" "alternatives to PowerPoint".
Definition K3 : Keyword := mkKeyword "K3" "slide deck automation".

Definition slideforge : CompanyInfo :=
  mkCompany "Slideforge" "slideforge.ai" "AI presentation maker"
    ["r/PowerPoint"; "r/GoogleSlides"] 2.

Definition example_input : CalendarInput :=
  mkInput slideforge [riley; jordan; emily] [K1; K2; K3] None.

(** A collaborator that always answers: titles name the subreddit. *)
Definition ai_post_ok (req : GeneratePostRequest) : string + (string * string) :=
  inr ("Thoughts on " +:+ req_subreddit req, "body").
Definition ai_comment_ok (req : GenerateCommentRequest) : string + string := inr "reply".

(** Monday 2025-12-08, 10:00 local time. *)
Definition monday_10am : Z := 20430 * ms_day + 10 * ms_hour.

Definition sam : Persona := mkPersona "sam_sales" "sales".
Definition alex : Persona := mkPersona "alex_design" "designer".

(** A persona matcher that has tracked five personas, none used yet. *)
Definition five_personas : list Persona := [riley; jordan; emily; sam; alex].

Definition five_tracked : gen_state :=
  mkState 0 (mkKeywordStrategy [] [])  []
    (map (fun p => (username p, mkPersonaUsage (username p) 0 0 (-1))) five_personas).

(** Draws 0.9 (four commenters) then 0 (the author joins). *)
Definition rng_four_then_op : nat -> draw := rng_of [dr 9 10; dr 0 1].

(** The outcome of a run, with defaults for a failed one. *)
Definition run_value {A} (d : A) (r : gen_error + (A * gen_state)) : A :=
  match r with inr (a, _) => a | inl _ => d end.
Definition run_state {A} (r : gen_error + (A * gen_state)) : gen_state :=
  match r with inr (_, s) => s | inl _ => init_state end.

(** The example week: Slideforge, three personas, three keywords, every
    random draw 0, a collaborator that always answers, run on a Monday. *)
Definition example_run : gen_error + (ContentCalendar * gen_state) :=
  generate rng_zero ai_post_ok ai_comment_ok example_input monday_10am monday_10am
    init_state.
Definition no_calendar : ContentCalendar := mkCalendar 0 "none" [] [] 0.
Definition example_calendar : ContentCalendar := run_value no_calendar example_run.

(** A post at 10:00 and a comment 30 seconds later. *)
Definition post_p1 : GeneratedPost :=
  mkPost "P1" "r/PowerPoint" "Thoughts" "body" "riley_ops" monday_10am ["K1"; "K2"].
Definition comment_30s : GeneratedComment :=
  mkComment "C1" "P1" None "reply" "jordan_consults" (monday_10am + 30000).

(** The calls of [selectSubreddit] that [createWeeklyPostPlan] makes on one
    strategy, for post indices [0 .. totalPosts - 1], in order (the keyword
    and persona rotators it calls in between do not touch this state). *)
Definition selectSubredditsRun (subs : list string) (totalPosts : nat) : M (list string) :=
  mapM (fun i => selectSubreddit subs (Z.of_nat i) (Z.of_nat totalPosts)) (seq 0 totalPosts).

(** Invariant of a subreddit tracker after the subreddits [pre] were
    selected: a tracked subreddit has no post yet exactly when it is not in
    [pre], and every selected subreddit is tracked. *)
Definition sub_inv (t : list (string * SubredditUsageTracker)) (pre : list string) : Prop :=
  (forall s u, map_get t s = Some u -> (postsThisWeek u = 0 <-> ~ In s pre)) /\
  (forall s, In s pre -> map_has t s = true).

(** [f] of the head of [l] is at least [f] of each later element. *)
Definition head_max {A} (f : A -> Z) (l : list A) : Prop :=
  match l with [] => True | h :: t => forall z, In z t -> f z <= f h end.

(** The post count the persona tracker records for a username (an
    untracked persona starts at 0). *)
Definition postsOf (t : list (string * PersonaUsageTracker)) (name : string) : Z :=
  match map_get t name with Some u => postCount u | None => 0 end.

(** The loop of [selectPostAuthor] that starts tracking new personas. *)
Definition initPersonaUsage (p : Persona) : M unit :=
  let* t := getPm in
  if map_has t (username p) then retM tt
  else putPm (map_set t (username p) (mkPersonaUsage (username p) 0 0 (-1))).

(** The combinations a state records as used. *)
Definition kc (st : gen_state) : list string := keywordCombinations (keywordStrategy st).

(** A second post whose title differs from [post_p1]'s only in letter case. *)
Definition post_p2_upper : GeneratedPost :=
  mkPost "P2" "r/GoogleSlides" "THOUGHTS" "body" "jordan_consults" monday_10am ["K3"].

(** A persona tracker with some posts and comments. *)
Definition used_tracker : list (string * PersonaUsageTracker) :=
  [("riley_ops", mkPersonaUsage "riley_ops" 2 1 3);
   ("jordan_consults", mkPersonaUsage "jordan_consults" 1 2 4);
   ("emily_econ", mkPersonaUsage "emily_econ" 1 0 2)].

(** The subreddit tracker after three posts over two subreddits. *)
Definition overposted_tracker : list (string * SubredditUsageTracker) :=
  subredditStrategy (run_state (selectSubredditsRun ["r/a"; "r/b"] 3 init_state)).

(* ================================================================== *)
(** * Properties *)

(* ------------------------------------------------------------------ *)
(** ** Draws and wall-clock fields *)

Lemma draw_bounds (r : draw) : 0 <= d_num r < d_den r.
Proof.
  destruct r as [n d H]; simpl.
  apply andb_prop in H as [H1 H2]. apply Z.leb_le in H1. apply Z.ltb_lt in H2. lia.
Qed.

Lemma floor_times_range (k : Z) (r : draw) : 0 < k -> 0 <= floor_times k r < k.
Proof.
  intros Hk. unfold floor_times. pose proof (draw_bounds r) as [H0 H1]. split.
  - apply Z.div_pos; nia.
  - apply Z.div_lt_upper_bound; nia.
Qed.

Lemma time_fields (D H Mi S : Z) :
  0 <= H < 24 -> 0 <= Mi < 60 -> 0 <= S < ms_minute ->
  let t := D * ms_day + H * ms_hour + Mi * ms_minute + S in
  day_number t = D /\ getHours t = H /\ getMinutes t = Mi.
Proof.
  intros HH HM HS t. unfold day_number, getHours, getMinutes, t.
  unfold ms_day, ms_hour, ms_minute in *.
  assert (Emod : (D * 86400000 + H * 3600000 + Mi * 60000 + S) mod 86400000
                 = H * 3600000 + Mi * 60000 + S).
  { symmetry. apply (Z.mod_unique _ _ D); lia. }
  assert (Emod' : (D * 86400000 + H * 3600000 + Mi * 60000 + S) mod 3600000
                  = Mi * 60000 + S).
  { symmetry. apply (Z.mod_unique _ _ (D * 24 + H)); lia. }
  rewrite Emod, Emod'. split; [|split].
  - symmetry. apply (Z.div_unique _ _ _ (H * 3600000 + Mi * 60000 + S)); lia.
  - symmetry. apply (Z.div_unique _ _ _ (Mi * 60000 + S)); lia.
  - symmetry. apply (Z.div_unique _ _ _ S); lia.
Qed.

Lemma time_decomp (t : Z) :
  exists D H Mi S, 0 <= H < 24 /\ 0 <= Mi < 60 /\ 0 <= S < ms_minute /\
                   t = D * ms_day + H * ms_hour + Mi * ms_minute + S.
Proof.
  unfold ms_day, ms_hour, ms_minute.
  pose proof (Z.div_mod t 86400000 ltac:(lia)) as E1.
  pose proof (Z.mod_pos_bound t 86400000 ltac:(lia)) as B1.
  set (r := t mod 86400000) in *.
  pose proof (Z.div_mod r 3600000 ltac:(lia)) as E2.
  pose proof (Z.mod_pos_bound r 3600000 ltac:(lia)) as B2.
  set (r2 := r mod 3600000) in *.
  pose proof (Z.div_mod r2 60000 ltac:(lia)) as E3.
  pose proof (Z.mod_pos_bound r2 60000 ltac:(lia)) as B3.
  exists (t / 86400000), (r / 3600000), (r2 / 60000), (r2 mod 60000).
  assert (0 <= r / 3600000 < 24).
  { split; [apply Z.div_pos | apply Z.div_lt_upper_bound]; lia. }
  assert (0 <= r2 / 60000 < 60).
  { split; [apply Z.div_pos | apply Z.div_lt_upper_bound]; lia. }
  lia.
Qed.

(** A timestamp given by its fields. *)
Ltac decompose_time t :=
  let D := fresh "D" in let H := fresh "H" in let Mi := fresh "Mi" in
  let S := fresh "S" in
  destruct (time_decomp t) as (D & H & Mi & S & ? & ? & ? & ->).

Lemma setMinutes_fields (D H Mi S m : Z) :
  0 <= H < 24 -> 0 <= Mi < 60 -> 0 <= S < ms_minute ->
  setMinutes (D * ms_day + H * ms_hour + Mi * ms_minute + S) m
  = D * ms_day + H * ms_hour + m * ms_minute + S.
Proof.
  intros. unfold setMinutes. destruct (time_fields D H Mi S) as (_ & _ & ->); auto. lia.
Qed.

Lemma setHours_fields (D H Mi S h : Z) :
  0 <= H < 24 -> 0 <= Mi < 60 -> 0 <= S < ms_minute ->
  setHours (D * ms_day + H * ms_hour + Mi * ms_minute + S) h
  = D * ms_day + h * ms_hour + Mi * ms_minute + S.
Proof.
  intros. unfold setHours. destruct (time_fields D H Mi S) as (_ & -> & _); auto. lia.
Qed.

(** [adjustToBusinessHours] on a timestamp given by its fields. *)
Lemma adjust_fields (D H Mi S : Z) :
  0 <= H < 24 -> 0 <= Mi < 60 -> 0 <= S < ms_minute ->
  adjustToBusinessHours (D * ms_day + H * ms_hour + Mi * ms_minute + S)
  = if H <? 6 then D * ms_day + 9 * ms_hour + 0 * ms_minute + S
    else if H >=? 23 then (D + 1) * ms_day + 9 * ms_hour + 0 * ms_minute + S
    else D * ms_day + H * ms_hour + Mi * ms_minute + S.
Proof.
  intros HH HM HS. unfold adjustToBusinessHours.
  destruct (time_fields D H Mi S) as (_ & -> & _); auto.
  destruct (H <? 6) eqn:E1.
  - rewrite setMinutes_fields by auto. rewrite setHours_fields by lia. reflexivity.
  - destruct (H >=? 23) eqn:E2; [|reflexivity].
    unfold addDays.
    replace (D * ms_day + H * ms_hour + Mi * ms_minute + S + 1 * ms_day)
      with ((D + 1) * ms_day + H * ms_hour + Mi * ms_minute + S) by lia.
    rewrite setMinutes_fields by auto. rewrite setHours_fields by lia. reflexivity.
Qed.

(** ** C9 *)

(** C9: [adjustToBusinessHours] is idempotent; a timestamp whose hour is in
    [6, 23) is left unchanged; an hour below 6 is moved to 09:00 of the same
    day and an hour at or after 23 to 09:00 of the next day (seconds and
    milliseconds kept), both of which are then left unchanged. *)
Theorem adjustToBusinessHours_idempotent (t : Z) :
  adjustToBusinessHours (adjustToBusinessHours t) = adjustToBusinessHours t /\
  (6 <= getHours t < 23 -> adjustToBusinessHours t = t) /\
  (getHours t < 6 ->
     day_number (adjustToBusinessHours t) = day_number t /\
     getHours (adjustToBusinessHours t) = 9 /\
     getMinutes (adjustToBusinessHours t) = 0) /\
  (23 <= getHours t ->
     day_number (adjustToBusinessHours t) = day_number t + 1 /\
     getHours (adjustToBusinessHours t) = 9 /\
     getMinutes (adjustToBusinessHours t) = 0).
Proof.
  decompose_time t.
  destruct (time_fields D H Mi S) as (Ed & Eh & Em); auto.
  rewrite Ed, Eh. rewrite adjust_fields by auto.
  destruct (H <? 6) eqn:E1; [|destruct (H >=? 23) eqn:E2].
  - apply Z.ltb_lt in E1.
    destruct (time_fields D 9 0 S) as (Ed' & Eh' & Em'); try lia.
    rewrite adjust_fields by lia. simpl. repeat split; auto; lia.
  - apply Z.ltb_ge in E1. apply Z.geb_le in E2.
    destruct (time_fields (D + 1) 9 0 S) as (Ed' & Eh' & Em'); try lia.
    rewrite adjust_fields by lia. simpl. repeat split; auto; lia.
  - apply Z.ltb_ge in E1. rewrite Z.geb_leb in E2. apply Z.leb_gt in E2.
    rewrite adjust_fields by auto.
    rewrite (proj2 (Z.ltb_ge H 6)) by lia.
    replace (H >=? 23) with false by (symmetry; rewrite Z.geb_leb; apply Z.leb_gt; lia).
    repeat split; auto; lia.
Qed.

(** ** C5 *)

Lemma generateLateCommentTime_unfold (rng : nat -> draw) (postTime : Z) (st : gen_state) :
  generateLateCommentTime rng postTime st
  = inr (addMinutes (addHours postTime (1 + floor_times 5 (rng (rng_pos st))))
                    (floor_times 60 (rng (S (rng_pos st)))),
         set_rng_pos (S (S (rng_pos st))) st).
Proof. reflexivity. Qed.

(** C5 (as stated it fails): no outcome of the draws gives a delay whose
    whole-hour part is 6, since [1 + Math.floor(Math.random() * 5)] is at
    most 5. *)
Lemma generateLateCommentTime_no_six_hours :
  ~ exists (rng : nat -> draw) (postTime : Z) (st : gen_state) (t : Z) (st' : gen_state),
      generateLateCommentTime rng postTime st = inr (t, st') /\
      (t - postTime) / ms_hour = 6.
Proof.
  intros (rng & postTime & st & t & st' & Hrun & Hsix).
  rewrite generateLateCommentTime_unfold in Hrun. inversion Hrun; subst t.
  pose proof (floor_times_range 5 (rng (rng_pos st)) ltac:(lia)).
  pose proof (floor_times_range 60 (rng (S (rng_pos st))) ltac:(lia)).
  unfold addMinutes, addHours, ms_hour, ms_minute in *.
  set (h := floor_times 5 (rng (rng_pos st))) in *.
  set (m := floor_times 60 (rng (S (rng_pos st)))) in *.
  assert (E : (postTime + (1 + h) * 3600000 + m * 60000 - postTime) / 3600000 = 1 + h).
  { symmetry. apply (Z.div_unique _ _ _ (m * 60000)); lia. }
  rewrite E in Hsix. lia.
Qed.

(** C5 (amended): [generateLateCommentTime] returns the post time plus a
    whole number of hours between 1 and 5, plus 0 to 59 extra minutes; the
    total delay lies in [1 h, 6 h). *)
Theorem generateLateCommentTime_delay (rng : nat -> draw) (postTime : Z) (st : gen_state) :
  exists (delayHours delayMinutes : Z) (st' : gen_state),
    generateLateCommentTime rng postTime st
    = inr (postTime + delayHours * ms_hour + delayMinutes * ms_minute, st') /\
    1 <= delayHours <= 5 /\ 0 <= delayMinutes <= 59 /\
    ms_hour <= delayHours * ms_hour + delayMinutes * ms_minute < 6 * ms_hour.
Proof.
  rewrite generateLateCommentTime_unfold.
  pose proof (floor_times_range 5 (rng (rng_pos st)) ltac:(lia)).
  pose proof (floor_times_range 60 (rng (S (rng_pos st))) ltac:(lia)).
  eexists (1 + floor_times 5 (rng (rng_pos st))), (floor_times 60 (rng (S (rng_pos st)))), _.
  split; [reflexivity|]. unfold ms_hour, ms_minute. lia.
Qed.

(** ** C10 *)

Lemma isValidCommentTime_subminute_false (postTime commentTime : Z) :
  0 < commentTime - postTime < ms_minute ->
  isValidCommentTime postTime commentTime = false.
Proof.
  intros Hd. unfold isValidCommentTime, getMinutesDifference, getTime.
  rewrite (Z.div_small (commentTime - postTime) ms_minute) by lia. reflexivity.
Qed.

(** C10 (amended): when a comment lies strictly after its post but less
    than a minute after it, [isValidCommentTime] returns false (the
    difference is floored to whole minutes) and [validateTimestamps]
    reports a blocking error, so its result is not valid. *)
Theorem validateTimestamps_subminute_comment (posts : list GeneratedPost)
    (comments : list GeneratedComment) (post : GeneratedPost) (comment : GeneratedComment) :
  In comment comments ->
  find_post posts (comment_post_id comment) = Some post ->
  0 < comment_timestamp comment - post_timestamp post < ms_minute ->
  isValidCommentTime (post_timestamp post) (comment_timestamp comment) = false /\
  isValid (validateTimestamps posts comments) = false.
Proof.
  intros Hin Hfind Hd.
  pose proof (isValidCommentTime_subminute_false _ _ Hd) as Hinv.
  split; [exact Hinv|].
  set (e := MsgTooLate (comment_id comment)
                       (comment_timestamp comment - post_timestamp post)).
  assert (Hc : In e (fst (check_comment_time posts comments comment))).
  { unfold check_comment_time. rewrite Hfind, Hinv. unfold getTime. simpl.
    rewrite (proj2 (Z.ltb_ge (comment_timestamp comment - post_timestamp post) 0)) by lia.
    fold e.
    repeat match goal with
           | |- context [if ?b then _ else _] => destruct b
           | |- context [match ?o with Some _ => _ | None => _ end] => destruct o
           end; simpl; auto. }
  unfold validateTimestamps. simpl.
  destruct (flat_map fst _ ++ flat_map fst _) as [|x l] eqn:Hl; [|reflexivity].
  exfalso. assert (Hin' : In e (flat_map fst (map (check_comment_time posts comments) comments))).
  { apply in_flat_map. exists (check_comment_time posts comments comment).
    split; [apply in_map; exact Hin | exact Hc]. }
  apply app_eq_nil in Hl as [_ Hl]. rewrite Hl in Hin'. exact Hin'.
Qed.

(** C10 (as stated it fails): a comment 30 seconds after its post is
    reported as "too late", not as "before its post". *)
Lemma validateTimestamps_subminute_not_before_post :
  errors (validateTimestamps [post_p1] [comment_30s]) = [MsgTooLate "C1" 30000] /\
  forall d, ~ In (MsgBeforePost "C1" d) (errors (validateTimestamps [post_p1] [comment_30s])).
Proof.
  assert (E : errors (validateTimestamps [post_p1] [comment_30s]) = [MsgTooLate "C1" 30000])
    by (vm_compute; reflexivity).
  split; [exact E|]. intros d. rewrite E. simpl. intros [H|H]; [discriminate|exact H].
Qed.

(* ------------------------------------------------------------------ *)
(** ** Maps and sorting *)

Lemma insert_by_perm {A} (lt : A -> A -> bool) (x : A) (l : list A) :
  Permutation (insert_by lt x l) (x :: l).
Proof.
  induction l as [|y l IH]; simpl; [reflexivity|].
  destruct (lt y x); [|reflexivity].
  rewrite IH. apply perm_swap.
Qed.

Lemma sort_by_perm {A} (lt : A -> A -> bool) (l : list A) :
  Permutation (sort_by lt l) l.
Proof.
  induction l as [|x l IH]; simpl; [reflexivity|].
  rewrite insert_by_perm, IH. reflexivity.
Qed.

Lemma map_set_Forall {V} (P : string * V -> Prop) (m : list (string * V)) k v :
  Forall P m -> (forall k', P (k', v)) -> Forall P (map_set m k v).
Proof.
  intros Hm Hv. induction Hm as [|[k' v'] m' Hkv Hm' IH]; simpl; [constructor; auto|].
  destruct (String.eqb k k'); constructor; auto.
Qed.

Lemma map_get_Forall {V} (P : string * V -> Prop) (m : list (string * V)) k v :
  Forall P m -> map_get m k = Some v -> exists k', P (k', v).
Proof.
  intros Hm. induction Hm as [|[k' v'] m' Hkv Hm' IH]; simpl; [discriminate|].
  destruct (String.eqb k k'); [intros [= <-]; eauto | exact IH].
Qed.

Lemma inc_count_pos (m : list (string * Z)) (k : string) :
  Forall (fun kv => 1 <= snd kv) m -> Forall (fun kv => 1 <= snd kv) (inc_count m k).
Proof.
  intros Hm. unfold inc_count. apply map_set_Forall; [exact Hm|]. intros k'. simpl.
  destruct (map_get m k) as [c|] eqn:E; [|lia].
  destruct (map_get_Forall _ _ _ _ Hm E) as [? Hc]. simpl in Hc. lia.
Qed.

Lemma fold_inc_count_pos {A} (key : A -> string) (l : list A) (m : list (string * Z)) :
  Forall (fun kv => 1 <= snd kv) m ->
  Forall (fun kv => 1 <= snd kv) (fold_left (fun m x => inc_count m (key x)) l m).
Proof.
  revert m. induction l as [|x l IH]; intros m Hm; simpl; [exact Hm|].
  apply IH, inc_count_pos, Hm.
Qed.

(** ** C6 *)

(** C6 (code defect): [validatePersonaDistribution] never emits the
    unused-personas warning. It only counts the usernames that occur in the
    posts and comments, each with a count of at least 1, so the check
    [stat.count === 0] never holds. *)
Theorem validatePersonaDistribution_no_unused_warning
    (posts : list GeneratedPost) (comments : list GeneratedComment) (users : list string) :
  ~ In (MsgUnusedPersonas users) (warnings (validatePersonaDistribution posts comments)).
Proof.
  unfold validatePersonaDistribution. simpl.
  set (counts := fold_left (fun m c => inc_count m (comment_username c)) comments
                   (fold_left (fun m p => inc_count m (author_username p)) posts [])).
  assert (Hpos : Forall (fun kv => 1 <= snd kv) counts).
  { apply fold_inc_count_pos, fold_inc_count_pos. constructor. }
  assert (Hsorted : Forall (fun kv => 1 <= snd kv) (sort_by (fun a b => snd b <? snd a) counts)).
  { eapply Permutation_Forall; [symmetry; apply sort_by_perm | exact Hpos]. }
  replace (existsb (fun s => snd s =? 0) (sort_by (fun a b => snd b <? snd a) counts))
    with false.
  - rewrite app_nil_r. intros Hin.
    destruct (sort_by _ counts) as [|[u c] [|? ?]]; simpl in Hin;
      try destruct (_ <? _); simpl in Hin; intuition discriminate.
  - symmetry. apply Bool.not_true_iff_false. intros Hex.
    apply existsb_exists in Hex as [[u c] [Hin Hc]].
    rewrite List.Forall_forall in Hsorted. specialize (Hsorted _ Hin). simpl in *.
    apply Z.eqb_eq in Hc. lia.
Qed.

(* ------------------------------------------------------------------ *)
(** ** Monadic inversion *)

Lemma bind_inr {A B} (m : M A) (k : A -> M B) (st : gen_state) r st' :
  bindM m k st = inr (r, st') ->
  exists a s, m st = inr (a, s) /\ k a s = inr (r, st').
Proof.
  unfold bindM. destruct (m st) as [e|[a s]]; [discriminate|eauto].
Qed.

Lemma ret_inr {A} (a : A) (st : gen_state) r st' :
  retM a st = inr (r, st') -> r = a /\ st' = st.
Proof. intros [= -> ->]. auto. Qed.

(** Split the first step of a successful [bindM] chain in hypothesis [H]. *)
Ltac step_bind H :=
  let E := fresh "E" in
  apply bind_inr in H; destruct H as (? & ? & E & H); cbv beta in H.

Ltac step_bind_as H a s E :=
  apply bind_inr in H; destruct H as (a & s & E & H); cbv beta in H.

Lemma mapM_length {A B} (f : A -> M B) (l : list A) (st : gen_state) r st' :
  mapM f l st = inr (r, st') -> length r = length l.
Proof.
  revert st r. induction l as [|x l IH]; intros st r H; simpl in H.
  - inversion H; reflexivity.
  - step_bind H. step_bind H. apply ret_inr in H as [-> ->].
    simpl. f_equal. eapply IH; eauto.
Qed.

(** Every result of [mapM f] satisfies [P] when every result of [f] does. *)
Lemma mapM_Forall {A B} (P : B -> Prop) (f : A -> M B) (l : list A) (st : gen_state) r st' :
  (forall x s y s', In x l -> f x s = inr (y, s') -> P y) ->
  mapM f l st = inr (r, st') -> List.Forall P r.
Proof.
  revert st r. induction l as [|x l IH]; intros st r Hf H; simpl in H.
  - inversion H; constructor.
  - step_bind H. step_bind H. apply ret_inr in H as [-> ->].
    constructor; [eapply Hf; [left; reflexivity | eassumption]|].
    eapply IH; [intros; eapply Hf; [right|]; eassumption | eassumption].
Qed.

Lemma in_firstn {A} (n : nat) (l : list A) x : In x (firstn n l) -> In x l.
Proof. intros H. rewrite <- (firstn_skipn n l). apply in_or_app. left. exact H. Qed.

Lemma mapM_pair_fst {A B} (g : A -> M B) (l : list A) :
  forall st w st',
  mapM (fun a => let* b := g a in retM (a, b)) l st = inr (w, st') -> map fst w = l.
Proof.
  induction l as [|a l IH]; intros st w st' H; simpl in H.
  - apply ret_inr in H as [-> _]. reflexivity.
  - step_bind_as H p st1 Ep. step_bind_as H rest st2 Erest.
    apply ret_inr in H as [-> _]. step_bind_as Ep b st3 Eb. apply ret_inr in Ep as [-> _].
    simpl. f_equal. exact (IH _ _ _ Erest).
Qed.

(** A [mapM] whose step only reads the state leaves it unchanged. *)
Lemma mapM_pair_state {A B} (g : A -> M B) (l : list A) :
  (forall a s b s', g a s = inr (b, s') -> s' = s) ->
  forall st w st',
  mapM (fun a => let* b := g a in retM (a, b)) l st = inr (w, st') -> st' = st.
Proof.
  intros Hg. induction l as [|a l IH]; intros st w st' H; simpl in H.
  - apply ret_inr in H as [_ ->]. reflexivity.
  - step_bind_as H p st1 Ep. step_bind_as H rest st2 Erest.
    apply ret_inr in H as [_ ->]. step_bind_as Ep b st3 Eb. apply ret_inr in Ep as [_ ->].
    rewrite (IH _ _ _ Erest). exact (Hg _ _ _ _ Eb).
Qed.

Lemma deref_state {A} (o : option A) (s : gen_state) a s' :
  deref o s = inr (a, s') -> s' = s.
Proof. destruct o; simpl; [intros [= _ ->]; reflexivity | discriminate]. Qed.

(** A [forM] whose body keeps the random position keeps it too. *)
Lemma forM_rng_pos {A} (l : list A) (f : A -> M unit) :
  (forall x s u s', f x s = inr (u, s') -> rng_pos s' = rng_pos s) ->
  forall st u st', forM l f st = inr (u, st') -> rng_pos st' = rng_pos st.
Proof.
  intros Hf. induction l as [|x l IH]; intros st u st' H; simpl in H.
  - apply ret_inr in H as [_ ->]. reflexivity.
  - step_bind_as H v st1 E1. rewrite (IH _ _ _ H). exact (Hf _ _ _ _ E1).
Qed.

(** The bookkeeping steps of [PersonaMatcher] only touch its tracker. *)
Lemma persona_update_rng_pos (name : string)
    (upd : PersonaUsageTracker -> PersonaUsageTracker) (s : gen_state) u s' :
  (let* t := getPm in
   let* usage := deref (map_get t name) in
   putPm (map_set t name (upd usage))) s = inr (u, s') ->
  rng_pos s' = rng_pos s.
Proof.
  intros H. step_bind_as H t s1 E1. unfold getPm, getsM in E1. injection E1 as <- <-.
  step_bind_as H usage s2 E2. apply deref_state in E2 as ->.
  unfold putPm, modifyM in H. injection H as _ <-. reflexivity.
Qed.

(** ** C2 *)

(** C2 (amended): [selectCommentAuthors] returns between 1 and 5 personas.
    When no persona other than the post author is available (by username),
    it returns just the post author. Otherwise it takes
    [min(2 + floor(3r), available)] available personas (1 to 4, none with
    the author's username), [r] being the first draw, and appends the post
    author exactly when the second draw is below 0.7. *)
Theorem selectCommentAuthors_length (rng : nat -> draw) (personas : list Persona)
    (postAuthor : Persona) (postIndex : Z) (st : gen_state) res st' :
  selectCommentAuthors rng personas postAuthor postIndex st = inr (res, st') ->
  let availablePersonas :=
    List.filter (fun p => negb (String.eqb (username p) (username postAuthor))) personas in
  (1 <= length res <= 5)%nat /\
  (availablePersonas = [] -> res = [postAuthor]) /\
  (availablePersonas <> [] ->
   exists selectedPersonas,
     length selectedPersonas
       = Z.to_nat (Z.min (2 + floor_times 3 (rng (rng_pos st)))
                         (Z.of_nat (length availablePersonas))) /\
     (1 <= length selectedPersonas <= 4)%nat /\
     (forall p, In p selectedPersonas -> In p availablePersonas) /\
     (if draw_lt (rng (S (rng_pos st))) 7 10
      then res = selectedPersonas ++ [postAuthor]
      else res = selectedPersonas)).
Proof.
  intros H. cbv zeta. unfold selectCommentAuthors in H.
  destruct (List.filter _ personas) as [|a rest] eqn:Hav.
  { apply ret_inr in H as [-> _]. split; [simpl; lia|]. split; [reflexivity|].
    intros C. contradiction. }
  step_bind_as H r s1 Er. unfold random in Er. injection Er as <- <-.
  step_bind_as H t s2 Et. unfold getPm, getsM in Et. injection Et as <- <-.
  step_bind_as H wu s3 Ewu.
  pose proof (mapM_length _ _ _ _ _ Ewu) as Hlen.
  pose proof (mapM_pair_fst _ _ _ _ _ Ewu) as Hfst.
  apply (mapM_pair_state _ _ (fun a s b s' E => deref_state _ _ _ _ E)) in Ewu. subst s3.
  step_bind_as H u s4 Efor.
  apply (forM_rng_pos _ _ (fun x s u s' E => persona_update_rng_pos _ _ _ _ _ E)) in Efor.
  step_bind_as H r2 s5 Er2. unfold random in Er2. injection Er2 as <- <-.
  rewrite Efor in H. cbn [rng_pos set_rng_pos] in H.
  pose proof (floor_times_range 3 (rng (rng_pos st)) ltac:(lia)) as Hr.
  set (n := Z.min _ _) in *.
  set (sel := map fst (firstn (Z.to_nat n) _)) in *.
  assert (Hn : 1 <= n <= 4) by (subst n; simpl length; lia).
  assert (Hsel : length sel = Z.to_nat n).
  { subst sel. rewrite length_map, length_firstn.
    rewrite (Permutation_length (sort_by_perm _ _)), Hlen.
    simpl length in *. subst n. lia. }
  assert (Hmem : forall p, In p sel -> In p (a :: rest)).
  { intros p Hp. subst sel. apply in_map_iff in Hp as (pu & <- & Hpu).
    apply in_firstn in Hpu. apply (Permutation_in _ (sort_by_perm _ _)) in Hpu.
    rewrite <- Hfst. apply in_map, Hpu. }
  replace (negb (length sel =? 0)%nat) with true in H
    by (rewrite Hsel; symmetry; apply negb_true_iff, Nat.eqb_neq; lia).
  split; [|split; [intros C; discriminate C|intros _]].
  - destruct (draw_lt _ 7 10) in H; cbn [andb] in H.
    + step_bind H. step_bind H. step_bind H. apply ret_inr in H as [-> ->].
      rewrite length_app, Hsel. simpl. lia.
    + apply ret_inr in H as [-> ->]. rewrite Hsel. lia.
  - exists sel. split; [exact Hsel|]. split; [lia|]. split; [exact Hmem|].
    destruct (draw_lt _ 7 10) in H |- *; cbn [andb] in H.
    + step_bind H. step_bind H. step_bind H. apply ret_inr in H as [-> ->]. reflexivity.
    + apply ret_inr in H as [-> ->]. reflexivity.
Qed.

Lemma validateTimestamps_subminute_comment_witness :
  In comment_30s [comment_30s] /\
  find_post [post_p1] (comment_post_id comment_30s) = Some post_p1 /\
  0 < comment_timestamp comment_30s - post_timestamp post_p1 < ms_minute /\
  isValidCommentTime (post_timestamp post_p1) (comment_timestamp comment_30s) = false /\
  isValid (validateTimestamps [post_p1] [comment_30s]) = false.
Proof.
  assert (H1 : In comment_30s [comment_30s]) by (left; reflexivity).
  assert (H2 : find_post [post_p1] (comment_post_id comment_30s) = Some post_p1)
    by reflexivity.
  assert (H3 : 0 < comment_timestamp comment_30s - post_timestamp post_p1 < ms_minute)
    by (vm_compute; split; reflexivity).
  split; [exact H1|]. split; [exact H2|]. split; [exact H3|].
  exact (validateTimestamps_subminute_comment [post_p1] [comment_30s] post_p1 comment_30s
           H1 H2 H3).
Defined.

(** C2 (as stated it fails): with five tracked personas, a draw of 0.9 for
    the commenter count (four commenters) and a draw below 0.7 for the
    author joining, five personas are returned. *)
Lemma selectCommentAuthors_returns_five :
  length (run_value [] (selectCommentAuthors rng_four_then_op five_personas riley 0
                          five_tracked)) = 5%nat /\
  (exists st', selectCommentAuthors rng_four_then_op five_personas riley 0 five_tracked
               = inr ([jordan; emily; sam; alex; riley], st')).
Proof.
  split; [vm_compute; reflexivity|].
  exists (run_state (selectCommentAuthors rng_four_then_op five_personas riley 0 five_tracked)).
  vm_compute. reflexivity.
Qed.

Lemma selectCommentAuthors_length_witness :
  selectCommentAuthors rng_four_then_op five_personas riley 0 five_tracked
  = inr (run_value [] (selectCommentAuthors rng_four_then_op five_personas riley 0 five_tracked),
         run_state (selectCommentAuthors rng_four_then_op five_personas riley 0 five_tracked)) /\
  (1 <= length (run_value [] (selectCommentAuthors rng_four_then_op five_personas riley 0
                               five_tracked)) <= 5)%nat /\
  exists selectedPersonas, length selectedPersonas = 4%nat /\
    run_value [] (selectCommentAuthors rng_four_then_op five_personas riley 0 five_tracked)
    = selectedPersonas ++ [riley].
Proof.
  assert (H : selectCommentAuthors rng_four_then_op five_personas riley 0 five_tracked
    = inr (run_value [] (selectCommentAuthors rng_four_then_op five_personas riley 0 five_tracked),
           run_state (selectCommentAuthors rng_four_then_op five_personas riley 0 five_tracked)))
    by (vm_compute; reflexivity).
  split; [exact H|].
  destruct (selectCommentAuthors_length rng_four_then_op five_personas riley 0 five_tracked _ _ H)
    as (Hl & _ & Hsel).
  split; [exact Hl|].
  destruct Hsel as (sel & Hlen & _ & _ & Hres); [vm_compute; discriminate|].
  exists sel. split; [rewrite Hlen; vm_compute; reflexivity|].
  assert (Hd : draw_lt (rng_four_then_op (S (rng_pos five_tracked))) 7 10 = true)
    by (vm_compute; reflexivity).
  rewrite Hd in Hres. exact Hres.
Defined.

(* ------------------------------------------------------------------ *)
(** ** Association lists and [new Set] *)

Lemma map_get_set {V} (m : list (string * V)) (k s : string) (v : V) :
  map_get (map_set m k v) s = if String.eqb s k then Some v else map_get m s.
Proof.
  induction m as [|[k' v'] m IH]; simpl.
  - reflexivity.
  - destruct (String.eqb k k') eqn:Ekk'; simpl.
    + apply String.eqb_eq in Ekk'. subst k'. destruct (String.eqb s k); reflexivity.
    + rewrite IH. destruct (String.eqb s k) eqn:Esk; [|reflexivity].
      apply String.eqb_eq in Esk. subst s. rewrite Ekk'. reflexivity.
Qed.

Lemma map_has_set {V} (m : list (string * V)) (k s : string) (v : V) :
  map_has (map_set m k v) s = String.eqb s k || map_has m s.
Proof. unfold map_has. rewrite map_get_set. destruct (String.eqb s k); reflexivity. Qed.

Lemma dedup_In (l : list string) (x : string) : In x (dedup l) <-> In x l.
Proof.
  induction l as [|y l IH]; simpl; [tauto|].
  rewrite filter_In, IH. destruct (String.eqb y x) eqn:E; simpl.
  - apply String.eqb_eq in E. subst. tauto.
  - apply String.eqb_neq in E. intuition.
Qed.

Lemma dedup_NoDup (l : list string) : List.NoDup (dedup l).
Proof.
  induction l as [|y l IH]; simpl; constructor.
  - rewrite filter_In. intros [_ H]. rewrite String.eqb_refl in H. discriminate.
  - apply List.NoDup_filter, IH.
Qed.

Lemma str_mem_In (x : string) (l : list string) : str_mem x l = true <-> In x l.
Proof.
  unfold str_mem. rewrite existsb_exists. split.
  - intros [y [Hy E]]. apply String.eqb_eq in E. subst. exact Hy.
  - intros Hx. exists x. split; [exact Hx | apply String.eqb_refl].
Qed.

(** Pigeonhole: a duplicate-free list shorter than the number of distinct
    subreddits misses one of them. *)
Lemma exists_unused (subs pre : list string) :
  List.NoDup pre -> (length pre < length (dedup subs))%nat ->
  exists s, In s subs /\ ~ In s pre.
Proof.
  intros Hnd Hlt.
  destruct (existsb (fun s => negb (str_mem s pre)) subs) eqn:E.
  - apply existsb_exists in E as [s [Hs Hn]]. exists s. split; [exact Hs|].
    rewrite <- str_mem_In. destruct (str_mem s pre); simpl in Hn; congruence.
  - exfalso.
    assert (Hincl : incl (dedup subs) pre).
    { intros x Hx. rewrite dedup_In in Hx. apply str_mem_In.
      destruct (str_mem x pre) eqn:Ex; [reflexivity|].
      assert (Hc : existsb (fun s => negb (str_mem s pre)) subs = true).
      { apply existsb_exists. exists x. rewrite Ex. split; [exact Hx | reflexivity]. }
      congruence. }
    pose proof (List.NoDup_incl_length (dedup_NoDup subs) Hincl). lia.
Qed.

(* ------------------------------------------------------------------ *)
(** ** Subreddit rotation *)

Lemma init_subs (subs pre : list string) (st : gen_state) u st1 :
  forM subs (fun sub =>
    let* t := getSub in
    if map_has t sub then retM tt
    else putSub (map_set t sub (mkSubUsage sub 0 (-1)))) st = inr (u, st1) ->
  sub_inv (subredditStrategy st) pre ->
  sub_inv (subredditStrategy st1) pre /\
  (forall s, In s subs \/ map_has (subredditStrategy st) s = true ->
             map_has (subredditStrategy st1) s = true).
Proof.
  revert st. induction subs as [|sub subs IH]; intros st H Hinv; simpl in H.
  - apply ret_inr in H as [_ ->]. split; [exact Hinv|]. intros s [[]|Hs]; exact Hs.
  - step_bind H. step_bind E. unfold getSub, getsM in E0. injection E0 as <- <-.
    destruct (map_has (subredditStrategy st) sub) eqn:Hhas.
    + apply ret_inr in E as [_ ->].
      destruct (IH _ H Hinv) as [Hinv' Hhas']. split; [exact Hinv'|].
      intros s [[<-|Hs]|Hs]; apply Hhas'; auto.
    + unfold putSub, modifyM in E. injection E as _ <-.
      set (st2 := set_subredditStrategy _ st) in H.
      assert (Hinv2 : sub_inv (subredditStrategy st2) pre).
      { destruct Hinv as [Hcnt Hpre]. split.
        - intros s u' Hget. simpl in Hget. rewrite map_get_set in Hget.
          destruct (String.eqb s sub) eqn:Es.
          + apply String.eqb_eq in Es. subst s. injection Hget as <-. simpl.
            split; [|reflexivity]. intros _ Hin. rewrite (Hpre _ Hin) in Hhas. discriminate.
          + exact (Hcnt _ _ Hget).
        - intros s Hs. simpl. rewrite map_has_set, (Hpre _ Hs). apply orb_true_r. }
      destruct (IH _ H Hinv2) as [Hinv' Hhas']. split; [exact Hinv'|].
      intros s [[<-|Hs]|Hs].
      * apply Hhas'. right. simpl. rewrite map_has_set, String.eqb_refl. reflexivity.
      * apply Hhas'. left. exact Hs.
      * apply Hhas'. right. simpl. rewrite map_has_set, Hs. apply orb_true_r.
Qed.

Lemma available_spec (t : list (string * SubredditUsageTracker)) (pre subs : list string)
    (st : gen_state) r st1 :
  sub_inv t pre -> (forall s, In s subs -> map_has t s = true) ->
  filterM (fun sub => let* usage := deref (map_get t sub) in
                      retM (postsThisWeek usage =? 0)) subs st = inr (r, st1) ->
  st1 = st /\
  (forall x, In x r -> In x subs /\ ~ In x pre) /\
  (forall x, In x subs -> ~ In x pre -> In x r).
Proof.
  intros [Hcnt _]. revert st r.
  induction subs as [|sub subs IH]; intros st r Hhas H; simpl in H.
  - apply ret_inr in H as [-> ->]. simpl. tauto.
  - step_bind H. step_bind E. step_bind H. apply ret_inr in H as [-> ->].
    apply ret_inr in E as [-> ->].
    destruct (map_get t sub) as [u|] eqn:Hget; [|discriminate E0].
    injection E0 as <- <-.
    pose proof (Hcnt _ _ Hget) as Hu.
    destruct (IH _ _ (fun s Hs => Hhas s (or_intror Hs)) E1) as [-> [IH1 IH2]].
    split; [reflexivity|].
    destruct (postsThisWeek u =? 0) eqn:E0.
    + apply Z.eqb_eq in E0. split.
      * intros x [<-|Hx]; [split; [left; reflexivity | apply Hu; exact E0]|].
        destruct (IH1 x Hx). split; [right|]; assumption.
      * intros x [<-|Hx] Hn; [left; reflexivity | right; apply IH2; assumption].
    + apply Z.eqb_neq in E0. split.
      * intros x Hx. destruct (IH1 x Hx). split; [right|]; assumption.
      * intros x [<-|Hx] Hn; [exfalso; apply E0, Hu, Hn | apply IH2; assumption].
Qed.

Lemma selectSubreddit_step (subs pre : list string) (i tot : Z) (st : gen_state) x st' :
  sub_inv (subredditStrategy st) pre ->
  (exists s, In s subs /\ ~ In s pre) ->
  selectSubreddit subs i tot st = inr (x, st') ->
  ~ In x pre /\ sub_inv (subredditStrategy st') (pre ++ [x]).
Proof.
  intros Hinv Hfree H. unfold selectSubreddit in H.
  step_bind_as H u st1 Einit. destruct (init_subs _ _ _ _ _ Einit Hinv) as [Hinv1 Hhas1].
  step_bind_as H t st2 Et. unfold getSub, getsM in Et. injection Et as <- <-.
  step_bind_as H avail st3 Eavail.
  destruct (available_spec _ _ _ _ _ _ Hinv1 (fun s Hs => Hhas1 s (or_introl Hs)) Eavail)
    as [-> [Hav1 Hav2]].
  step_bind_as H sel st4 Esel.
  assert (Hx : In sel avail /\ st4 = st1).
  { destruct avail as [|a l].
    - exfalso. destruct Hfree as [s [Hs Hn]]. exact (Hav2 s Hs Hn).
    - destruct (Z.rem i _ <? 0); [discriminate Esel|].
      destruct (nth_error (a :: l) _) as [y|] eqn:Hn; [|discriminate Esel].
      injection Esel as <- <-. split; [eapply nth_error_In; exact Hn | reflexivity]. }
  destruct Hx as [Hx ->]. destruct (Hav1 _ Hx) as [Hxs Hxpre].
  step_bind_as H t' st5 Et'. unfold getSub, getsM in Et'. injection Et' as <- <-.
  step_bind_as H usage st6 Eu. step_bind_as H v st7 Eput.
  apply ret_inr in H as [-> ->].
  unfold putSub, modifyM in Eput. injection Eput as _ <-.
  destruct (map_get (subredditStrategy st1) sel) as [u0|] eqn:Hget; [|discriminate Eu].
  injection Eu as <- <-.
  split; [exact Hxpre|].
  destruct Hinv1 as [Hcnt Hpre].
  assert (Hu0 : postsThisWeek u0 = 0) by (apply (Hcnt _ _ Hget); exact Hxpre).
  split.
  - intros s w Hw. simpl in Hw. rewrite map_get_set in Hw. rewrite in_app_iff. simpl.
    destruct (String.eqb s sel) eqn:Es.
    + apply String.eqb_eq in Es. subst s. injection Hw as <-. simpl. split; [lia | intros Hn; exfalso; apply Hn; right; left; reflexivity].
    + apply String.eqb_neq in Es. rewrite (Hcnt _ _ Hw). intuition.
  - intros s Hs. simpl. rewrite map_has_set. apply in_app_iff in Hs as [Hs|[<-|[]]].
    + rewrite (Hpre _ Hs). apply orb_true_r.
    + rewrite String.eqb_refl. reflexivity.
Qed.

Lemma selectSubreddit_run (subs : list string) (tot : Z) (l : list nat) :
  forall pre st r st',
  sub_inv (subredditStrategy st) pre -> List.NoDup pre ->
  (length pre + length l <= length (dedup subs))%nat ->
  mapM (fun i => selectSubreddit subs (Z.of_nat i) tot) l st = inr (r, st') ->
  List.NoDup (pre ++ r).
Proof.
  induction l as [|i l IH]; intros pre st r st' Hinv Hnd Hlen H; simpl in H.
  - apply ret_inr in H as [-> ->]. rewrite app_nil_r. exact Hnd.
  - step_bind_as H x st1 Ex. step_bind_as H rest st2 Erest.
    apply ret_inr in H as [-> ->]. simpl in Hlen.
    destruct (selectSubreddit_step _ _ _ _ _ _ _ Hinv
                (exists_unused subs pre Hnd ltac:(lia)) Ex) as [Hx Hinv1].
    assert (Hnd1 : List.NoDup (pre ++ [x])).
    { apply List.NoDup_app; [exact Hnd | constructor; [intros []|constructor] |].
      intros y Hy [<-|[]]. exact (Hx Hy). }
    pose proof (IH _ _ _ _ Hinv1 Hnd1 ltac:(rewrite length_app; simpl; lia) Erest) as Hr.
    rewrite <- app_assoc in Hr. exact Hr.
Qed.

(** C4: on a fresh [SubredditStrategy], when the list of subreddits holds at
    least [totalPosts] distinct names, the subreddits chosen for post indices
    [0 .. totalPosts-1] are pairwise distinct. *)
Theorem selectSubreddit_distinct (subs : list string) (totalPosts : nat)
    (st : gen_state) sel st' :
  subredditStrategy st = [] ->
  (totalPosts <= length (dedup subs))%nat ->
  selectSubredditsRun subs totalPosts st = inr (sel, st') ->
  List.NoDup sel.
Proof.
  intros Hfresh Hlen H. unfold selectSubredditsRun in H.
  apply (selectSubreddit_run subs (Z.of_nat totalPosts) (seq 0 totalPosts) [] st sel st').
  - rewrite Hfresh. split; [intros s u Hs; discriminate Hs | intros s []].
  - constructor.
  - rewrite length_seq. simpl. exact Hlen.
  - exact H.
Qed.

Lemma selectSubreddit_distinct_witness :
  subredditStrategy init_state = [] /\
  (3 <= length (dedup ["r/a"; "r/b"; "r/a"; "r/c"]))%nat /\
  selectSubredditsRun ["r/a"; "r/b"; "r/a"; "r/c"] 3 init_state
  = inr (["r/a"; "r/c"; "r/b"],
         run_state (selectSubredditsRun ["r/a"; "r/b"; "r/a"; "r/c"] 3 init_state)) /\
  List.NoDup ["r/a"; "r/c"; "r/b"].
Proof.
  assert (H : selectSubredditsRun ["r/a"; "r/b"; "r/a"; "r/c"] 3 init_state
    = inr (["r/a"; "r/c"; "r/b"],
           run_state (selectSubredditsRun ["r/a"; "r/b"; "r/a"; "r/c"] 3 init_state)))
    by (vm_compute; reflexivity).
  assert (Hl : (3 <= length (dedup ["r/a"; "r/b"; "r/a"; "r/c"]))%nat)
    by (vm_compute; lia).
  split; [reflexivity|]. split; [exact Hl|]. split; [exact H|].
  exact (selectSubreddit_distinct _ _ init_state _ _ eq_refl Hl H).
Defined.

Lemma firstPass_spec (count pi : Z) (l : list (Keyword * KeywordUsageTracker)) :
  forall sel st r st',
  List.NoDup (map keyword_id sel ++ map (fun p => keyword_id (fst p)) l) ->
  Z.of_nat (length sel) <= count ->
  firstPass count pi l sel st = inr (r, st') ->
  List.NoDup (map keyword_id r) /\
  (forall k, In k r -> In k sel \/ In k (map fst l)) /\
  Z.of_nat (length r) <= count.
Proof.
  induction l as [|[kw u] l IH]; intros sel st r st' Hnd Hlen H; simpl in H.
  - apply ret_inr in H as [-> ->]. rewrite app_nil_r in Hnd. auto.
  - destruct (Z.of_nat (length sel) >=? count) eqn:Hge.
    + apply ret_inr in H as [-> ->].
      split; [exact (List.NoDup_app_remove_r _ _ Hnd)|]. auto.
    + step_bind_as H ks st1 Eks.
      destruct (_ || _).
      * step_bind_as H v st2 Ebump.
        rewrite Z.geb_leb, Z.leb_gt in Hge.
        destruct (IH (sel ++ [kw]) _ _ _ ltac:(rewrite map_app, <- app_assoc; exact Hnd)
                    ltac:(rewrite length_app; simpl; lia) H) as (H1 & H2 & H3).
        split; [exact H1|]. split; [|exact H3].
        intros k Hk. destruct (H2 k Hk) as [Hs|Hs].
        -- apply in_app_iff in Hs as [Hs|[<-|[]]]; [left; exact Hs | right; left; reflexivity].
        -- right; right; exact Hs.
      * destruct (IH _ _ _ _ (List.NoDup_remove_1 _ _ _ Hnd) Hlen H) as (H1 & H2 & H3).
        split; [exact H1|]. split; [|exact H3].
        intros k Hk. destruct (H2 k Hk) as [Hs|Hs]; [left; exact Hs | right; right; exact Hs].
Qed.

Lemma secondPass_spec (count pi : Z) (l : list (Keyword * KeywordUsageTracker)) :
  forall sel st r st',
  List.NoDup (map keyword_id sel) ->
  Z.of_nat (length sel) <= count ->
  secondPass count pi l sel st = inr (r, st') ->
  List.NoDup (map keyword_id r) /\
  (forall k, In k r -> In k sel \/ In k (map fst l)) /\
  Z.of_nat (length r) <= count /\
  (Z.of_nat (length r) < count ->
   forall kw, In kw (map fst l) -> In (keyword_id kw) (map keyword_id r)) /\
  (forall k, In k sel -> In k r).
Proof.
  induction l as [|[kw u] l IH]; intros sel st r st' Hnd Hlen H; simpl in H.
  - apply ret_inr in H as [-> ->]. split; [exact Hnd|].
    repeat split; auto. intros _ kw [].
  - destruct (Z.of_nat (length sel) >=? count) eqn:Hge.
    + apply ret_inr in H as [-> ->]. apply Z.geb_le in Hge.
      repeat split; auto. intros Hlt. lia.
    + destruct (existsb _ sel) eqn:Ex; simpl in H.
      * destruct (IH _ _ _ _ Hnd Hlen H) as (H1 & H2 & H3 & H4 & H5).
        repeat split; auto.
        -- intros k Hk. destruct (H2 k Hk) as [Hs|Hs]; [left; exact Hs | right; right; exact Hs].
        -- intros Hlt k [<-|Hk]; [|exact (H4 Hlt k Hk)].
           apply existsb_exists in Ex as (k' & Hk' & Eq). apply String.eqb_eq in Eq.
           simpl. rewrite <- Eq. apply in_map, H5, Hk'.
      * step_bind_as H v st2 Ebump.
        assert (Hnd' : List.NoDup (map keyword_id (sel ++ [kw]))).
        { rewrite map_app. apply List.NoDup_app; [exact Hnd | constructor; [intros []|constructor] |].
          intros a Ha [<-|[]]. apply in_map_iff in Ha as (k & Heq & Hk).
          assert (existsb (fun k0 => String.eqb (keyword_id k0) (keyword_id kw)) sel = true)
            by (apply existsb_exists; exists k; split;
                [exact Hk | rewrite Heq; apply String.eqb_refl]).
          congruence. }
        rewrite Z.geb_leb, Z.leb_gt in Hge.
        destruct (IH (sel ++ [kw]) _ _ _ Hnd' ltac:(rewrite length_app; simpl; lia) H)
          as (H1 & H2 & H3 & H4 & H5).
        repeat split; auto.
        -- intros k Hk. destruct (H2 k Hk) as [Hs|Hs].
           ++ apply in_app_iff in Hs as [Hs|[<-|[]]]; [left; exact Hs | right; left; reflexivity].
           ++ right; right; exact Hs.
        -- intros Hlt k [<-|Hk]; [|exact (H4 Hlt k Hk)].
           simpl. apply in_map, H5, in_app_iff. right. left. reflexivity.
        -- intros k Hk. apply H5, in_app_iff. left. exact Hk.
Qed.


(** C8: with at least three keywords of pairwise distinct ids, a successful
    [selectKeywordsForPost] returns 2 or 3 keywords of the supplied list, with
    pairwise distinct ids, whatever the tracker state and the random draw. *)
Theorem selectKeywordsForPost_count (rng : nat -> draw) (availableKeywords : list Keyword)
    (postIndex : Z) (subreddit : string) (st : gen_state) r st' :
  (3 <= length availableKeywords)%nat ->
  List.NoDup (map keyword_id availableKeywords) ->
  selectKeywordsForPost rng availableKeywords postIndex subreddit st = inr (r, st') ->
  (length r = 2 \/ length r = 3)%nat /\
  List.NoDup (map keyword_id r) /\
  (forall k, In k r -> In k availableKeywords).
Proof.
  intros Hlen Hnd H. unfold selectKeywordsForPost in H.
  step_bind_as H u st1 Einit. step_bind_as H d st2 Ed.
  step_bind_as H ks st3 Eks. step_bind_as H w st4 Ew.
  apply mapM_pair_fst in Ew.
  set (c := if draw_lt d 6 10 then 2 else 3) in H.
  assert (Hc : c = 2 \/ c = 3) by (unfold c; destruct (draw_lt d 6 10); auto).
  set (sorted := sort_by keywordUsageLt w) in H.
  assert (Hperm : Permutation (map fst sorted) availableKeywords).
  { rewrite <- Ew. apply Permutation_map, sort_by_perm. }
  assert (Hin : forall k, In k (map fst sorted) <-> In k availableKeywords).
  { intros k. split; apply Permutation_in; [exact Hperm | symmetry; exact Hperm]. }
  step_bind_as H s1 st5 E1.
  destruct (firstPass_spec c postIndex sorted [] _ _ _
              ltac:(simpl; rewrite <- map_map; eapply Permutation_NoDup;
                    [apply Permutation_map; symmetry; exact Hperm | exact Hnd])
              ltac:(simpl; lia) E1) as (F1 & F2 & F3).
  step_bind_as H s2 st6 E2.
  assert (Hs2 : List.NoDup (map keyword_id s2) /\
                (forall k, In k s2 -> In k availableKeywords) /\
                Z.of_nat (length s2) = c).
  { destruct (Z.of_nat (length s1) <? c) eqn:Hlt.
    - destruct (secondPass_spec c postIndex sorted s1 _ _ _ F1 F3 E2)
        as (S1 & S2 & S3 & S4 & _).
      split; [exact S1|]. split.
      + intros k Hk. destruct (S2 k Hk) as [Hk'|Hk']; [|apply Hin, Hk'].
        destruct (F2 k Hk') as [[]|Hk'']. apply Hin, Hk''.
      + destruct (Z_lt_le_dec (Z.of_nat (length s2)) c) as [Hl|Hl]; [|lia].
        exfalso.
        assert (Hincl : incl (map keyword_id availableKeywords) (map keyword_id s2)).
        { intros a Ha. apply in_map_iff in Ha as (k & <- & Hk). apply S4; [exact Hl|].
          apply Hin, Hk. }
        pose proof (List.NoDup_incl_length Hnd Hincl) as Hle.
        rewrite !length_map in Hle. lia.
    - apply ret_inr in E2 as [-> _]. apply Z.ltb_ge in Hlt.
      split; [exact F1|]. split; [|lia].
      intros k Hk. destruct (F2 k Hk) as [[]|Hk']. apply Hin, Hk'. }
  step_bind_as H ks' st7 Eks'. step_bind_as H v st8 Eput.
  apply ret_inr in H as [-> _].
  destruct Hs2 as (R1 & R2 & R3). split; [lia|]. split; assumption.
Qed.

Lemma selectKeywordsForPost_count_witness :
  (3 <= length [K1; K2; K3])%nat /\
  List.NoDup (map keyword_id [K1; K2; K3]) /\
  selectKeywordsForPost rng_zero [K1; K2; K3] 0 "r/PowerPoint" init_state
  = inr (run_value [] (selectKeywordsForPost rng_zero [K1; K2; K3] 0 "r/PowerPoint" init_state),
         run_state (selectKeywordsForPost rng_zero [K1; K2; K3] 0 "r/PowerPoint" init_state)) /\
  (length (run_value [] (selectKeywordsForPost rng_zero [K1; K2; K3] 0 "r/PowerPoint"
                          init_state)) = 2 \/
   length (run_value [] (selectKeywordsForPost rng_zero [K1; K2; K3] 0 "r/PowerPoint"
                          init_state)) = 3)%nat.
Proof.
  assert (Hl : (3 <= length [K1; K2; K3])%nat) by (simpl; lia).
  assert (Hn : List.NoDup (map keyword_id [K1; K2; K3])) by (vm_compute; repeat constructor; vm_compute; intuition discriminate).
  assert (H : selectKeywordsForPost rng_zero [K1; K2; K3] 0 "r/PowerPoint" init_state
    = inr (run_value [] (selectKeywordsForPost rng_zero [K1; K2; K3] 0 "r/PowerPoint" init_state),
           run_state (selectKeywordsForPost rng_zero [K1; K2; K3] 0 "r/PowerPoint" init_state)))
    by (vm_compute; reflexivity).
  split; [exact Hl|]. split; [exact Hn|]. split; [exact H|].
  exact (proj1 (selectKeywordsForPost_count rng_zero _ _ _ _ _ _ Hl Hn H)).
Defined.

(** The phases of a successful [generate] run. *)
Lemma generate_inv (rng : nat -> draw) aiP aiC (input : CalendarInput)
    (startClock endClock : Z) (st : gen_state) cal st' :
  generate rng aiP aiC input startClock endClock st = inr (cal, st') ->
  exists plans posts0 comments0 st1 st2,
    generateComments rng aiC posts0 plans input st1 = inr (comments0, st2) /\
    (posts cal, comments cal) = fixTimestampIssues posts0 comments0 /\
    isValid (validateContentCalendar (posts cal) (comments cal)) = true.
Proof.
  intros H. unfold generate in H.
  step_bind_as H u st0 Ereset. step_bind_as H plans st1 Eplans.
  step_bind_as H posts0 st2 Eposts. step_bind_as H comments0 st3 Ecomments.
  destruct (fixTimestampIssues posts0 comments0) as [p c] eqn:Efix.
  destruct (isValid (validateContentCalendar p c)) eqn:Ev; simpl in H; [|discriminate H].
  apply ret_inr in H as [-> _]. simpl.
  exists plans, posts0, comments0, st2, st3. auto.
Qed.

(** C7: a calendar that [generate] returns passes the validation of its own
    posts and comments: [isValid] holds, and so it does for each of the five
    business-rule checks. *)
Theorem generate_returns_valid (rng : nat -> draw) aiP aiC (input : CalendarInput)
    (startClock endClock : Z) (st : gen_state) cal st' :
  generate rng aiP aiC input startClock endClock st = inr (cal, st') ->
  isValid (validateContentCalendar (posts cal) (comments cal)) = true /\
  isValid (validateNoOverposting (posts cal)) = true /\
  isValid (validateTopicDiversity (posts cal)) = true /\
  isValid (validateTimestamps (posts cal) (comments cal)) = true /\
  isValid (validatePersonaDistribution (posts cal) (comments cal)) = true /\
  isValid (validateCommentThreads (comments cal)) = true.
Proof.
  intros H. destruct (generate_inv _ _ _ _ _ _ _ _ _ H) as (_ & _ & _ & _ & _ & _ & _ & Hv).
  split; [exact Hv|].
  unfold validateContentCalendar in Hv. simpl in Hv.
  rewrite !andb_true_iff in Hv. tauto.
Qed.

Lemma generate_returns_valid_witness :
  generate rng_zero ai_post_ok ai_comment_ok example_input monday_10am monday_10am init_state
  = inr (example_calendar, run_state example_run) /\
  isValid (validateContentCalendar (posts example_calendar) (comments example_calendar))
  = true.
Proof.
  assert (H : generate rng_zero ai_post_ok ai_comment_ok example_input monday_10am
                monday_10am init_state = inr (example_calendar, run_state example_run))
    by (vm_compute; reflexivity).
  split; [exact H|].
  exact (proj1 (generate_returns_valid _ _ _ _ _ _ _ _ _ H)).
Defined.

Lemma createCommentPlans_parents (rng : nat -> draw) (personas : list Persona)
    (targetCount : Z) (postAuthor : Persona) (st : gen_state) plans st' :
  createCommentPlans rng personas targetCount postAuthor st = inr (plans, st') ->
  List.Forall (fun p => parentCommentId p = None \/ parentCommentId p = Some "C1") plans.
Proof.
  intros H. eapply mapM_Forall; [|exact H].
  intros [i persona] s y s' _ Hf. simpl in Hf.
  step_bind_as Hf d s1 Ed. destruct d as [[pos par] m]. simpl in Hf.
  apply ret_inr in Hf as [-> _]. simpl.
  destruct (i =? 0)%nat.
  - step_bind_as Ed r s2 Er. apply ret_inr in Ed as [Ed _]. injection Ed as _ <- _. auto.
  - step_bind_as Ed b s2 Eb. destruct b.
    + step_bind_as Ed r s3 Er. apply ret_inr in Ed as [Ed _]. injection Ed as _ <- _. auto.
    + destruct (String.eqb _ _).
      * apply ret_inr in Ed as [Ed _]. injection Ed as _ <- _. auto.
      * step_bind_as Ed r s3 Er. apply ret_inr in Ed as [Ed _]. injection Ed as _ <- _. auto.
Qed.

Lemma generateThread_ids (rng : nat -> draw) aiC (input : CalendarInput)
    (post : GeneratedPost) (plans : list CommentPlan) :
  forall all counter st res st',
  List.Forall (fun p => parentCommentId p = None \/ parentCommentId p = Some "C1") plans ->
  map comment_id all = map comment_id_of (seq 1 (length all)) ->
  List.Forall (fun c => parent_comment_id c = None \/ parent_comment_id c = Some "C1") all ->
  counter = S (length all) ->
  generateThread rng aiC input post plans all counter st = inr (res, st') ->
  map comment_id (fst res) = map comment_id_of (seq 1 (length (fst res))) /\
  List.Forall (fun c => parent_comment_id c = None \/ parent_comment_id c = Some "C1")
    (fst res) /\
  snd res = S (length (fst res)).
Proof.
  induction plans as [|pl plans IH]; intros all counter st res st' Hpl Hids Hpar Hc H;
    simpl in H.
  - apply ret_inr in H as [-> _]. simpl. auto.
  - step_bind_as H text s1 Et. step_bind_as H ts s2 Ets.
    inversion Hpl as [|? ? Hp Hpl']; subst.
    eapply IH; [exact Hpl' | | | | exact H].
    + rewrite map_app, length_app, Hids, Nat.add_1_r, seq_S, map_app. reflexivity.
    + apply List.Forall_app. split; [exact Hpar|]. constructor; [exact Hp | constructor].
    + rewrite length_app. simpl. lia.
Qed.

Lemma generateCommentsLoop_ids (rng : nat -> draw) aiC (input : CalendarInput)
    (postsAndPlans : list (GeneratedPost * PostPlan)) :
  forall i all counter st res st',
  map comment_id all = map comment_id_of (seq 1 (length all)) ->
  List.Forall (fun c => parent_comment_id c = None \/ parent_comment_id c = Some "C1") all ->
  counter = S (length all) ->
  generateCommentsLoop rng aiC input i postsAndPlans all counter st = inr (res, st') ->
  map comment_id res = map comment_id_of (seq 1 (length res)) /\
  List.Forall (fun c => parent_comment_id c = None \/ parent_comment_id c = Some "C1") res.
Proof.
  induction postsAndPlans as [|[post plan] pp IH];
    intros i all counter st res st' Hids Hpar Hc H; simpl in H.
  - apply ret_inr in H as [-> _]. auto.
  - step_bind_as H r s1 Er. step_bind_as H cps s2 Ecps.
    step_bind_as H cplans s3 Ecplans. step_bind_as H thread s4 Eth.
    destruct thread as [all' counter']. simpl in H.
    destruct (generateThread_ids _ _ _ _ _ _ _ _ _ _
                (createCommentPlans_parents _ _ _ _ _ _ _ Ecplans) Hids Hpar Hc Eth)
      as (T1 & T2 & T3). simpl in T1, T2, T3.
    exact (IH _ _ _ _ _ _ T1 T2 T3 H).
Qed.

Lemma fixTimestampIssues_comment_fields (posts : list GeneratedPost)
    (comments : list GeneratedComment) :
  map comment_id (snd (fixTimestampIssues posts comments)) = map comment_id comments /\
  map parent_comment_id (snd (fixTimestampIssues posts comments))
  = map parent_comment_id comments.
Proof.
  unfold fixTimestampIssues. simpl. rewrite !map_map.
  split; apply map_ext; intros c;
    destruct (find_post _ _); try destruct (_ <? _); reflexivity.
Qed.

Lemma comment_id_of_inj (n m : nat) : comment_id_of n = comment_id_of m -> n = m.
Proof.
  unfold comment_id_of. simpl. intros H. injection H as H.
  exact (pretty_nat_inj n m H).
Qed.

Lemma NoDup_map_comment_id_of (l : list nat) :
  List.NoDup l -> List.NoDup (map comment_id_of l).
Proof.
  induction 1 as [|n l Hn Hl IH]; simpl; constructor; [|exact IH].
  intros Hin. apply in_map_iff in Hin as (m & Hm & Hin).
  apply comment_id_of_inj in Hm. subst m. contradiction.
Qed.

Lemma flat_map_nil {A B} (f : A -> list B) (l : list A) :
  flat_map f l = [] -> forall x, In x l -> f x = [].
Proof.
  intros H x Hx. destruct (f x) as [|b bs] eqn:Ef; [reflexivity|].
  assert (Hb : In b (flat_map f l)) by (apply in_flat_map; exists x; rewrite Ef; simpl; auto).
  rewrite H in Hb. destruct Hb.
Qed.

(** C3: in a calendar that [generate] returns, comment ids are pairwise
    distinct, every parent id is the id of a comment of the calendar, and no
    comment is its own parent. *)
Theorem generate_comment_threads (rng : nat -> draw) aiP aiC (input : CalendarInput)
    (startClock endClock : Z) (st : gen_state) cal st' :
  generate rng aiP aiC input startClock endClock st = inr (cal, st') ->
  List.NoDup (map comment_id (comments cal)) /\
  (forall c p, In c (comments cal) -> parent_comment_id c = Some p ->
     exists c', In c' (comments cal) /\ comment_id c' = p) /\
  (forall c, In c (comments cal) -> parent_comment_id c <> Some (comment_id c)).
Proof.
  intros H.
  destruct (generate_inv _ _ _ _ _ _ _ _ _ H)
    as (plans & posts0 & comments0 & st1 & st2 & Ecs & Efix & Hv).
  unfold generateComments in Ecs.
  destruct (generateCommentsLoop_ids _ _ _ _ _ [] 1 _ _ _ eq_refl
              (List.Forall_nil _) eq_refl Ecs) as [Hids Hpar].
  destruct (fixTimestampIssues_comment_fields posts0 comments0) as [Fid Fpar].
  rewrite <- Efix in Fid, Fpar. simpl in Fid, Fpar.
  assert (Hpar' : List.Forall (fun c => parent_comment_id c = None \/
                                        parent_comment_id c = Some "C1") (comments cal)).
  { apply List.Forall_forall. intros c Hc.
    assert (Hin : In (parent_comment_id c) (map parent_comment_id comments0))
      by (rewrite <- Fpar; apply in_map, Hc).
    apply in_map_iff in Hin as (c0 & Hc0 & Hin). rewrite <- Hc0.
    rewrite List.Forall_forall in Hpar. exact (Hpar c0 Hin). }
  assert (Hth : forall c, In c (comments cal) ->
            (match parent_comment_id c with
             | Some parent =>
                 if truthy (Some parent) then
                   (if existsb (fun c' => String.eqb (comment_id c') parent) (comments cal)
                    then [] else [MsgNonExistentParent (comment_id c) parent])
                   ++ (if String.eqb (comment_id c) parent
                       then [MsgSelfParent (comment_id c)] else [])
                 else []
             | None => []
             end) = []).
  { unfold validateContentCalendar in Hv. simpl in Hv. rewrite !andb_true_iff in Hv.
    destruct Hv as (_ & _ & _ & _ & Hv & _).
    unfold validateCommentThreads in Hv. simpl in Hv.
    apply Nat.eqb_eq, length_zero_iff_nil in Hv.
    exact (flat_map_nil _ _ Hv). }
  split; [|split].
  - rewrite Fid, Hids. apply NoDup_map_comment_id_of, seq_NoDup.
  - intros c p Hc Hp. pose proof (Hth c Hc) as E.
    rewrite List.Forall_forall in Hpar'. destruct (Hpar' c Hc) as [Hn|Hn]; rewrite Hp in Hn;
      [discriminate Hn|]. injection Hn as ->. rewrite Hp in E. simpl in E.
    destruct (existsb _ _) eqn:Ex; [|discriminate E].
    apply existsb_exists in Ex as (c' & Hc' & Eq). apply String.eqb_eq in Eq.
    exists c'. auto.
  - intros c Hc Hp. pose proof (Hth c Hc) as E.
    rewrite List.Forall_forall in Hpar'. destruct (Hpar' c Hc) as [Hn|Hn]; rewrite Hp in Hn;
      [discriminate Hn|]. rewrite Hp in E. injection Hn as Hn. rewrite Hn in E. simpl in E.
    destruct (existsb _ _); discriminate E.
Qed.

Lemma generate_comment_threads_witness :
  generate rng_zero ai_post_ok ai_comment_ok example_input monday_10am monday_10am init_state
  = inr (example_calendar, run_state example_run) /\
  List.NoDup (map comment_id (comments example_calendar)).
Proof.
  assert (H : generate rng_zero ai_post_ok ai_comment_ok example_input monday_10am
                monday_10am init_state = inr (example_calendar, run_state example_run))
    by (vm_compute; reflexivity).
  split; [exact H|].
  exact (proj1 (generate_comment_threads _ _ _ _ _ _ _ _ _ H)).
Defined.

(** C1: in the example week the reply planned for the second post (the
    second commenter, position [reply]) names ["C1"] as parent, and ["C1"]
    is the first comment of the first post: the parent of a reply does not
    always belong to the reply's own post. *)
Theorem generate_reply_parent_other_post :
  map (fun c => (comment_id c, comment_post_id c, parent_comment_id c))
      (comments example_calendar)
  = [("C1", "P1", None); ("C2", "P1", Some "C1");
     ("C3", "P2", None); ("C4", "P2", Some "C1")] /\
  exists c p, In c (comments example_calendar) /\ In p (comments example_calendar) /\
    parent_comment_id c = Some (comment_id p) /\ comment_post_id c <> comment_post_id p.
Proof.
  assert (E : map (fun c => (comment_id c, comment_post_id c, parent_comment_id c))
                  (comments example_calendar)
              = [("C1", "P1", None); ("C2", "P1", Some "C1");
                 ("C3", "P2", None); ("C4", "P2", Some "C1")])
    by (vm_compute; reflexivity).
  split; [exact E|].
  destruct (comments example_calendar) as [|c1 [|c2 [|c3 [|c4 [|c5 l]]]]];
    try discriminate E.
  simpl in E. injection E as E1 E2 E3 E4.
  exists c4, c1. simpl. split; [auto 6|]. split; [auto 6|].
  split.
  - congruence.
  - congruence.
Qed.

(* ------------------------------------------------------------------ *)
(** ** Further properties: [date.ts] *)

Lemma random_unfold (rng : nat -> draw) (st : gen_state) :
  random rng st = inr (rng (rng_pos st), set_rng_pos (S (rng_pos st)) st).
Proof. reflexivity. Qed.

(** The first comment comes 15 to 59 whole minutes after the post. *)
Theorem generateFirstCommentTime_delay (rng : nat -> draw) (postTime : Z) (st : gen_state) :
  exists (delayMinutes : Z) (st' : gen_state),
    generateFirstCommentTime rng postTime st
    = inr (postTime + delayMinutes * ms_minute, st') /\
    15 <= delayMinutes <= 59.
Proof.
  pose proof (floor_times_range 45 (rng (rng_pos st)) ltac:(lia)).
  exists (15 + floor_times 45 (rng (rng_pos st))), (set_rng_pos (S (rng_pos st)) st).
  split; [reflexivity | lia].
Qed.

(** A reply comes 5 to 29 whole minutes after its parent. *)
Theorem generateReplyCommentTime_delay (rng : nat -> draw) (parentTime : Z)
    (st : gen_state) :
  exists (delayMinutes : Z) (st' : gen_state),
    generateReplyCommentTime rng parentTime st
    = inr (parentTime + delayMinutes * ms_minute, st') /\
    5 <= delayMinutes <= 29.
Proof.
  pose proof (floor_times_range 25 (rng (rng_pos st)) ltac:(lia)).
  exists (5 + floor_times 25 (rng (rng_pos st))), (set_rng_pos (S (rng_pos st)) st).
  split; [reflexivity | lia].
Qed.

Lemma startOfWeek_monday (t : Z) :
  startOfWeek t = day_number (startOfWeek t) * ms_day /\
  getDay (startOfWeek t) = 1 /\
  day_number t - 6 <= day_number (startOfWeek t) <= day_number t.
Proof.
  unfold startOfWeek, getDay.
  set (dn := day_number t).
  assert (Hd : 0 <= (dn + 4) mod 7 < 7) by (apply Z.mod_pos_bound; lia).
  set (day := (dn + 4) mod 7) in *.
  set (diff := (if day <? 1 then 7 else 0) + day - 1).
  assert (Hdn : day_number ((dn - diff) * ms_day) = dn - diff).
  { unfold day_number. apply Z.div_mul. unfold ms_day. lia. }
  rewrite Hdn. split; [reflexivity|].
  assert (Hdiff : 0 <= diff <= 6 /\ (dn - diff + 4) mod 7 = 1).
  { unfold diff. pose proof (Z.div_mod (dn + 4) 7 ltac:(lia)) as E. fold day in E.
    destruct (day <? 1) eqn:Ed.
    - apply Z.ltb_lt in Ed. split; [lia|].
      replace (dn - (7 + day - 1) + 4) with (1 + ((dn + 4) / 7 - 1) * 7) by lia.
      rewrite Z_mod_plus_full. reflexivity.
    - apply Z.ltb_ge in Ed. split; [lia|].
      replace (dn - (0 + day - 1) + 4) with (1 + ((dn + 4) / 7) * 7) by lia.
      rewrite Z_mod_plus_full. reflexivity. }
  destruct Hdiff as [Hb Hm]. split; [exact Hm | lia].
Qed.

(** For [0 <= postIndex < totalPosts], a post is scheduled on the Monday of
    the week of [weekStart] or up to 7 days later (a weekend day moved off
    the weekend lands on the next Monday), between 09:00 and 20:59, on a
    whole minute. *)
Theorem generatePostTime_range (rng : nat -> draw) (weekStart postIndex totalPosts : Z)
    (st : gen_state) r st' :
  0 <= postIndex < totalPosts ->
  generatePostTime rng weekStart postIndex totalPosts st = inr (r, st') ->
  day_number (startOfWeek weekStart) <= day_number r <= day_number (startOfWeek weekStart) + 7 /\
  9 <= getHours r <= 20 /\
  r mod ms_minute = 0.
Proof.
  intros Hi H. unfold generatePostTime in H.
  destruct (startOfWeek_monday weekStart) as (Hsw & Hday & _).
  set (D0 := day_number (startOfWeek weekStart)) in *.
  set (off := postIndex * 7 / totalPosts) in H.
  assert (Hoff : 0 <= off <= 6).
  { unfold off. split; [apply Z.div_pos; lia|].
    apply Z.lt_succ_r, Z.div_lt_upper_bound; lia. }
  assert (Hpd : addDays (startOfWeek weekStart) off = (D0 + off) * ms_day)
    by (unfold addDays; rewrite Hsw; lia).
  rewrite Hpd in H.
  step_bind_as H postDate st1 Epd.
  assert (Hpd' : exists D, postDate = D * ms_day /\ D0 <= D <= D0 + 7).
  { destruct (isWeekend ((D0 + off) * ms_day)) eqn:Hw.
    - step_bind_as Epd d s1 Ed.
      destruct (draw_gt d 3 10); [|apply ret_inr in Epd as [-> _]; exists (D0 + off); lia].
      apply ret_inr in Epd as [-> _].
      assert (Hdn : day_number ((D0 + off) * ms_day) = D0 + off)
        by (unfold day_number; apply Z.div_mul; unfold ms_day; lia).
      unfold isWeekend, getDay in Hw. rewrite Hdn in Hw.
      unfold getDay in Hday. rewrite Hsw in Hday.
      assert (Hdn0 : day_number (D0 * ms_day) = D0)
        by (unfold day_number; apply Z.div_mul; unfold ms_day; lia).
      rewrite Hdn0 in Hday.
      unfold getDay. rewrite Hdn.
      replace (D0 + off + 4) with ((D0 + 4) + off) in * by lia.
      rewrite Zplus_mod in Hw |- *. rewrite Hday in Hw |- *.
      rewrite (Z.mod_small off 7) in Hw |- * by lia.
      assert (off = 5 \/ off = 6).
      { assert (Hc : off = 0 \/ off = 1 \/ off = 2 \/ off = 3 \/ off = 4 \/ off = 5 \/ off = 6)
          by lia.
        destruct Hc as [E | [E | [E | [E | [E | [E | E]]]]]]; rewrite E in Hw;
          try discriminate Hw; auto. }
      destruct H0 as [-> | ->]; simpl.
      + exists (D0 + 7). unfold addDays. lia.
      + exists (D0 + 7). unfold addDays. lia.
    - apply ret_inr in Epd as [-> _]. exists (D0 + off). lia. }
  destruct Hpd' as (D & -> & HD).
  step_bind_as H d1 s2 Ed1. step_bind_as H hour s3 Ehour.
  assert (Hh : 9 <= hour <= 20).
  { destruct (draw_lt d1 1 2).
    - step_bind_as Ehour d2 s4 Ed2. apply ret_inr in Ehour as [-> _].
      pose proof (floor_times_range 4 d2 ltac:(lia)). lia.
    - step_bind_as Ehour d2 s4 Ed2. apply ret_inr in Ehour as [-> _].
      pose proof (floor_times_range 12 d2 ltac:(lia)). lia. }
  step_bind_as H d3 s5 Ed3. apply ret_inr in H as [-> _].
  pose proof (floor_times_range 60 d3 ltac:(lia)) as Hm.
  replace (D * ms_day) with (D * ms_day + 0 * ms_hour + 0 * ms_minute + 0) by lia.
  rewrite setHours_fields by (unfold ms_minute; lia).
  rewrite setMinutes_fields by (unfold ms_minute; lia).
  destruct (time_fields D hour (floor_times 60 d3) 0) as (E1 & E2 & _);
    try (unfold ms_minute; lia).
  rewrite E1, E2. split; [lia|]. split; [lia|].
  unfold ms_day, ms_hour, ms_minute.
  replace (D * 86400000 + hour * 3600000 + floor_times 60 d3 * 60000 + 0)
    with ((D * 1440 + hour * 60 + floor_times 60 d3) * 60000) by lia.
  apply Z_mod_mult.
Qed.

Lemma generatePostTime_range_witness :
  0 <= 1 < 2 /\
  generatePostTime rng_zero monday_10am 1 2 init_state
  = inr (run_value 0 (generatePostTime rng_zero monday_10am 1 2 init_state),
         run_state (generatePostTime rng_zero monday_10am 1 2 init_state)) /\
  9 <= getHours (run_value 0 (generatePostTime rng_zero monday_10am 1 2 init_state)) <= 20.
Proof.
  assert (H : generatePostTime rng_zero monday_10am 1 2 init_state
    = inr (run_value 0 (generatePostTime rng_zero monday_10am 1 2 init_state),
           run_state (generatePostTime rng_zero monday_10am 1 2 init_state)))
    by (vm_compute; reflexivity).
  split; [lia|]. split; [exact H|].
  exact (proj1 (proj2 (generatePostTime_range rng_zero monday_10am 1 2 init_state _ _
                         ltac:(lia) H))).
Defined.

(** [adjustToBusinessHours] never moves a timestamp earlier, moves it by at
    most 10 hours, and always yields an hour between 06 and 22. *)
Theorem adjustToBusinessHours_range (t : Z) :
  t <= adjustToBusinessHours t <= t + 10 * ms_hour /\
  6 <= getHours (adjustToBusinessHours t) <= 22.
Proof.
  decompose_time t.
  rewrite adjust_fields by auto.
  destruct (H <? 6) eqn:E1; [|destruct (H >=? 23) eqn:E2].
  - apply Z.ltb_lt in E1.
    destruct (time_fields D 9 0 S) as (_ & -> & _); try lia.
    unfold ms_day, ms_hour, ms_minute in *. lia.
  - apply Z.geb_le in E2.
    destruct (time_fields (D + 1) 9 0 S) as (_ & -> & _); try lia.
    unfold ms_day, ms_hour, ms_minute in *. lia.
  - apply Z.ltb_ge in E1. rewrite Z.geb_leb in E2. apply Z.leb_gt in E2.
    destruct (time_fields D H Mi S) as (_ & -> & _); try lia.
    unfold ms_day, ms_hour, ms_minute in *. lia.
Qed.

Lemma isValidCommentTime_spec (postTime commentTime : Z) :
  isValidCommentTime postTime commentTime = true <->
  ms_minute <= commentTime - postTime < 7 * ms_day.
Proof.
  unfold isValidCommentTime, getMinutesDifference, getTime, ms_minute, ms_day.
  rewrite andb_true_iff, Z.gtb_lt, !Z.ltb_lt.
  set (d := commentTime - postTime).
  split.
  - intros [H1 H2]. split.
    + destruct (Z_lt_le_dec d 60000) as [Hl|Hl]; [|exact Hl].
      assert (d / 60000 < 1) by (apply Z.div_lt_upper_bound; lia). lia.
    + destruct (Z_lt_le_dec d (7 * 86400000)) as [Hl|Hl]; [exact Hl|].
      assert (10080 <= d / 60000) by (apply Z.div_le_lower_bound; lia). lia.
  - intros [H1 H2]. split.
    + assert (1 <= d / 60000) by (apply Z.div_le_lower_bound; lia). lia.
    + apply Z.div_lt_upper_bound; lia.
Qed.

(** [isValidCommentTime] accepts exactly the comments at least one minute
    and less than seven days after the post. *)
Theorem isValidCommentTime_iff (postTime commentTime : Z) :
  isValidCommentTime postTime commentTime = true <->
  ms_minute <= commentTime - postTime < 7 * ms_day.
Proof. exact (isValidCommentTime_spec postTime commentTime). Qed.

(** [generateRandomBusinessHoursTime] stays on the day of [now], picks an
    hour between 09 and 20, and keeps the seconds and milliseconds of
    [now]. *)
Theorem generateRandomBusinessHoursTime_range (rng : nat -> draw) (now : Z)
    (st : gen_state) :
  exists r st',
    generateRandomBusinessHoursTime rng now st = inr (r, st') /\
    day_number r = day_number now /\
    9 <= getHours r <= 20 /\
    r mod ms_minute = now mod ms_minute.
Proof.
  unfold generateRandomBusinessHoursTime.
  set (h := 9 + floor_times 12 (rng (rng_pos st))).
  set (m := floor_times 60 (rng (S (rng_pos st)))).
  pose proof (floor_times_range 12 (rng (rng_pos st)) ltac:(lia)) as Bh.
  pose proof (floor_times_range 60 (rng (S (rng_pos st))) ltac:(lia)) as Bm.
  exists (setMinutes (setHours now h) m), (set_rng_pos (S (S (rng_pos st))) st).
  split; [reflexivity|].
  destruct (time_decomp now) as (D & Hr & Mi & S & HH & HM & HS & ->).
  rewrite setHours_fields by auto. rewrite setMinutes_fields by (unfold h, m in *; lia).
  destruct (time_fields D h m S) as (E1 & E2 & _); try (unfold h, m in *; lia).
  destruct (time_fields D Hr Mi S) as (E3 & _ & _); try lia.
  rewrite E1, E2, E3. split; [reflexivity|]. split; [unfold h in *; lia|].
  unfold ms_day, ms_hour, ms_minute in *.
  replace (D * 86400000 + h * 3600000 + m * 60000 + S)
    with (S + (D * 1440 + h * 60 + m) * 60000) by lia.
  replace (D * 86400000 + Hr * 3600000 + Mi * 60000 + S)
    with (S + (D * 1440 + Hr * 60 + Mi) * 60000) by lia.
  rewrite !Z_mod_plus_full. reflexivity.
Qed.

(* ------------------------------------------------------------------ *)
(** ** Further properties: counting maps in [validators.ts] *)

Lemma map_get_In {V} (m : list (string * V)) (k : string) (v : V) :
  map_get m k = Some v -> In (k, v) m.
Proof.
  induction m as [|[k' v'] m IH]; simpl; [discriminate|].
  destruct (String.eqb k k') eqn:E.
  - apply String.eqb_eq in E. subst. intros [= <-]. left. reflexivity.
  - intros H. right. exact (IH H).
Qed.

Lemma In_map_get {V} (m : list (string * V)) (k : string) (v : V) :
  List.NoDup (map fst m) -> In (k, v) m -> map_get m k = Some v.
Proof.
  induction m as [|[k' v'] m IH]; simpl; [intros _ []|].
  intros Hnd [E|Hin]; inversion Hnd as [|? ? Hk Hnd']; subst.
  - injection E as -> ->. rewrite String.eqb_refl. reflexivity.
  - destruct (String.eqb k k') eqn:E.
    + apply String.eqb_eq in E. subst k'. exfalso. apply Hk.
      apply (in_map fst) in Hin. exact Hin.
    + exact (IH Hnd' Hin).
Qed.

Lemma map_set_keys {V} (m : list (string * V)) (k : string) (v : V) :
  forall s, In s (map fst (map_set m k v)) <-> s = k \/ In s (map fst m).
Proof.
  induction m as [|[k' v'] m IH]; intros s; simpl; [intuition congruence|].
  destruct (String.eqb k k') eqn:E; simpl.
  - apply String.eqb_eq in E. subst. intuition congruence.
  - rewrite IH. intuition congruence.
Qed.

Lemma map_set_NoDup {V} (m : list (string * V)) (k : string) (v : V) :
  List.NoDup (map fst m) -> List.NoDup (map fst (map_set m k v)).
Proof.
  induction m as [|[k' v'] m IH]; simpl; intros Hnd.
  - constructor; [intros []|constructor].
  - inversion Hnd as [|? ? Hk Hnd']; subst.
    destruct (String.eqb k k') eqn:E; simpl; [exact Hnd|].
    constructor; [|exact (IH Hnd')].
    rewrite map_set_keys. apply String.eqb_neq in E. intros [->|H]; [congruence | tauto].
Qed.

Lemma fold_inc_count_NoDup {A} (key : A -> string) (l : list A) :
  forall m, List.NoDup (map fst m) ->
  List.NoDup (map fst (fold_left (fun m x => inc_count m (key x)) l m)).
Proof.
  induction l as [|x l IH]; intros m Hm; simpl; [exact Hm|].
  apply IH. unfold inc_count. apply map_set_NoDup, Hm.
Qed.

(** The counting loop [map.set(k, (map.get(k) || 0) + 1)]: the count of a
    key is its number of occurrences. *)
Lemma fold_inc_count_get {A} (key : A -> string) (l : list A) :
  forall m k,
  map_get (fold_left (fun m x => inc_count m (key x)) l m) k =
  match map_get m k with
  | Some c => Some (c + Z.of_nat (List.count_occ string_dec (map key l) k))
  | None =>
      if (List.count_occ string_dec (map key l) k =? 0)%nat then None
      else Some (Z.of_nat (List.count_occ string_dec (map key l) k))
  end.
Proof.
  induction l as [|x l IH]; intros m k; simpl.
  - destruct (map_get m k); [rewrite Z.add_0_r|]; reflexivity.
  - rewrite IH. unfold inc_count. rewrite map_get_set.
    destruct (string_dec (key x) k) as [E|E].
    + subst k. rewrite String.eqb_refl.
      destruct (map_get m (key x)); f_equal; lia.
    + replace (String.eqb k (key x)) with false
        by (symmetry; apply String.eqb_neq; congruence).
      reflexivity.
Qed.

Lemma flat_map_nil_iff {A B} (f : A -> list B) (l : list A) :
  flat_map f l = [] <-> forall x, In x l -> f x = [].
Proof.
  induction l as [|x l IH]; simpl; [split; [intros _ _ []|reflexivity]|].
  split.
  - intros H. apply List.app_eq_nil in H as [Hx Hl].
    intros y [<-|Hy]; [exact Hx | exact (proj1 IH Hl y Hy)].
  - intros H. rewrite (H x (or_introl eq_refl)), (proj2 IH (fun y Hy => H y (or_intror Hy))).
    reflexivity.
Qed.

(** With the counts of [fold_inc_count_get] from an empty map: every count
    is at most 1 exactly when no key occurs twice. *)
Lemma counts_le1_NoDup {A} (key : A -> string) (l : list A) :
  (forall s c, In (s, c) (fold_left (fun m x => inc_count m (key x)) l []) -> c <= 1) <->
  List.NoDup (map key l).
Proof.
  rewrite (NoDup_count_occ string_dec). split.
  - intros H s. pose proof (fold_inc_count_get key l [] s) as E. simpl in E.
    destruct (List.count_occ string_dec (map key l) s =? 0)%nat eqn:Ez.
    + apply Nat.eqb_eq in Ez. lia.
    + apply map_get_In, H in E. lia.
  - intros H s c Hin.
    apply In_map_get in Hin; [|apply fold_inc_count_NoDup; constructor].
    rewrite fold_inc_count_get in Hin. simpl in Hin. specialize (H s).
    destruct (_ =? 0)%nat; [discriminate|]. injection Hin as <-. lia.
Qed.

(** [validateNoOverposting] reports no error exactly when no two posts
    share a subreddit. *)
Theorem validateNoOverposting_iff (posts : list GeneratedPost) :
  isValid (validateNoOverposting posts) = true <-> List.NoDup (map subreddit posts).
Proof.
  rewrite <- (counts_le1_NoDup subreddit posts).
  unfold validateNoOverposting. simpl.
  set (t := fold_left (fun m p => inc_count m (subreddit p)) posts []).
  rewrite Nat.eqb_eq, length_zero_iff_nil. split.
  - intros H s c Hin. pose proof (proj1 (flat_map_nil_iff _ _) H _ Hin) as E. simpl in E.
    destruct (1 <? c) eqn:Ec; [discriminate E|]. apply Z.ltb_ge in Ec. exact Ec.
  - intros H. apply (proj2 (flat_map_nil_iff _ _)). intros [s c] Hin.
    specialize (H s c Hin). simpl. destruct (1 <? c) eqn:Ec; [|reflexivity].
    apply Z.ltb_lt in Ec. lia.
Qed.

(* ------------------------------------------------------------------ *)
(** ** Further properties: [validateTimestamps], [validateCommentThreads],
    [fixTimestampIssues] *)

Lemma app_single_not_nil {A} (l : list A) (x : A) : l ++ [x] <> [].
Proof. intros H. apply List.app_eq_nil in H as [_ H]. discriminate H. Qed.

(** The errors of one comment in [validateTimestamps] are empty exactly when
    its post is found, it is at least a minute and less than seven days
    after that post, and a truthy parent id names a comment that is not
    later than it. *)
Lemma check_comment_time_ok (posts : list GeneratedPost)
    (comments : list GeneratedComment) (c : GeneratedComment) :
  fst (check_comment_time posts comments c) = [] <->
  exists post, find_post posts (comment_post_id c) = Some post /\
    ms_minute <= comment_timestamp c - post_timestamp post < 7 * ms_day /\
    (forall parent, parent_comment_id c = Some parent -> parent <> "" ->
       exists pc, find_comment comments parent = Some pc /\
         comment_timestamp pc <= comment_timestamp c).
Proof.
  unfold check_comment_time.
  destruct (find_post posts (comment_post_id c)) as [post|] eqn:Ef.
  2: { split; [discriminate | intros (post & H & _); discriminate]. }
  set (e1 := if negb (isValidCommentTime _ _) then _ else _).
  assert (He1 : e1 = [] <->
                ms_minute <= comment_timestamp c - post_timestamp post < 7 * ms_day).
  { subst e1. rewrite <- isValidCommentTime_spec. destruct (isValidCommentTime _ _); simpl; [tauto|].
    destruct (_ <? 0); split; discriminate. }
  destruct (parent_comment_id c) as [parent|] eqn:Ep.
  - unfold truthy. destruct (String.eqb parent "") eqn:Ee; simpl.
    + apply String.eqb_eq in Ee. rewrite He1. split.
      * intros Hv. exists post. split; [reflexivity|split; [exact Hv|]].
        intros p [= <-] Hne. contradiction.
      * intros (post' & [= <-] & Hv & _). exact Hv.
    + apply String.eqb_neq in Ee.
      destruct (find_comment comments parent) as [pc|] eqn:Efc.
      * unfold getTime.
        destruct (comment_timestamp c - comment_timestamp pc <? 0) eqn:Er;
          [|destruct (_ <? ms_minute)]; simpl.
        -- split; [intros H; exfalso; exact (app_single_not_nil _ _ H)|].
           intros (post' & _ & _ & Hp). apply Z.ltb_lt in Er.
           destruct (Hp parent eq_refl Ee) as (pc' & Hpc & Hle).
           rewrite Efc in Hpc. injection Hpc as <-. lia.
        -- apply Z.ltb_ge in Er. rewrite He1. split.
           ++ intros Hv. exists post. split; [reflexivity|split; [exact Hv|]].
              intros p [= <-] _. exists pc. split; [exact Efc | lia].
           ++ intros (post' & [= <-] & Hv & _). exact Hv.
        -- apply Z.ltb_ge in Er. rewrite He1. split.
           ++ intros Hv. exists post. split; [reflexivity|split; [exact Hv|]].
              intros p [= <-] _. exists pc. split; [exact Efc | lia].
           ++ intros (post' & [= <-] & Hv & _). exact Hv.
      * split; [intros H; exfalso; exact (app_single_not_nil _ _ H)|].
        intros (post' & _ & _ & Hp).
        destruct (Hp parent eq_refl Ee) as (pc' & Hpc & _). congruence.
  - rewrite He1. split.
    + intros Hv. exists post. split; [reflexivity|split; [exact Hv|]]. intros p Hp. discriminate Hp.
    + intros (post' & [= <-] & Hv & _). exact Hv.
Qed.

(** [validateTimestamps] is valid exactly when no post is between 02:00 and
    05:00, and every comment has its post, lies at least one minute and less
    than seven days after it, and, when it has a non-empty parent id, that
    parent exists and is not later than it. *)
Theorem validateTimestamps_iff (posts : list GeneratedPost)
    (comments : list GeneratedComment) :
  isValid (validateTimestamps posts comments) = true <->
  (forall p, In p posts -> ~ (2 <= getHours (post_timestamp p) < 5)) /\
  (forall c, In c comments ->
     exists post, find_post posts (comment_post_id c) = Some post /\
       ms_minute <= comment_timestamp c - post_timestamp post < 7 * ms_day /\
       (forall parent, parent_comment_id c = Some parent -> parent <> "" ->
          exists pc, find_comment comments parent = Some pc /\
            comment_timestamp pc <= comment_timestamp c)).
Proof.
  unfold validateTimestamps. simpl. rewrite Nat.eqb_eq, length_zero_iff_nil.
  split.
  - intros H. apply List.app_eq_nil in H as [H1 H2]. split.
    + intros p Hp. pose proof (flat_map_nil _ _ H1 _ (in_map _ _ _ Hp)) as E.
      simpl in E. intros [Ha Hb].
      rewrite (proj2 (Z.leb_le _ _) Ha), (proj2 (Z.ltb_lt _ _) Hb) in E.
      discriminate E.
    + intros c Hc. apply check_comment_time_ok.
      exact (flat_map_nil _ _ H2 _ (in_map _ _ _ Hc)).
  - intros [Hp Hc].
    rewrite (proj2 (flat_map_nil_iff fst (map _ posts))),
            (proj2 (flat_map_nil_iff fst (map _ comments))); [reflexivity| |].
    + intros x Hx. apply in_map_iff in Hx as (c & <- & Hin).
      apply check_comment_time_ok, Hc, Hin.
    + intros x Hx. apply in_map_iff in Hx as (p & <- & Hin). simpl.
      destruct ((2 <=? getHours (post_timestamp p)) && (getHours (post_timestamp p) <? 5))
        eqn:Eh; [|reflexivity].
      exfalso. apply (Hp p Hin). apply andb_true_iff in Eh as [Ha Hb].
      apply Z.leb_le in Ha. apply Z.ltb_lt in Hb. lia.
Qed.

(** [validateCommentThreads] is valid exactly when every non-empty parent id
    is the id of some comment and differs from the comment's own id. *)
Theorem validateCommentThreads_iff (comments : list GeneratedComment) :
  isValid (validateCommentThreads comments) = true <->
  forall c parent, In c comments -> parent_comment_id c = Some parent -> parent <> "" ->
    (exists c', In c' comments /\ comment_id c' = parent) /\ comment_id c <> parent.
Proof.
  unfold validateCommentThreads. simpl.
  rewrite Nat.eqb_eq, length_zero_iff_nil, flat_map_nil_iff. split.
  - intros H c parent Hc Ep Hne. specialize (H c Hc). rewrite Ep in H.
    unfold truthy in H. apply String.eqb_neq in Hne as Hne'. rewrite Hne' in H.
    simpl in H. apply List.app_eq_nil in H as [H1 H2]. split.
    + destruct (existsb _ comments) eqn:Ex; [|discriminate H1].
      apply existsb_exists in Ex as (c' & Hin & Eq).
      apply String.eqb_eq in Eq. eauto.
    + destruct (String.eqb (comment_id c) parent) eqn:Es; [discriminate H2|].
      apply String.eqb_neq, Es.
  - intros H c Hc. destruct (parent_comment_id c) as [parent|] eqn:Ep; [|reflexivity].
    unfold truthy. destruct (String.eqb parent "") eqn:Ee; [reflexivity|]. simpl.
    apply String.eqb_neq in Ee.
    destruct (H c parent Hc Ep Ee) as [(c' & Hin & Eid) Hself].
    replace (existsb (fun c0 => String.eqb (comment_id c0) parent) comments) with true.
    2: { symmetry. apply existsb_exists. exists c'. split; [exact Hin|].
         apply String.eqb_eq, Eid. }
    rewrite (proj2 (String.eqb_neq _ _) Hself). reflexivity.
Qed.

Lemma adjust_keep (t : Z) : 6 <= getHours t < 23 -> adjustToBusinessHours t = t.
Proof.
  intros H. unfold adjustToBusinessHours. cbv zeta.
  rewrite (proj2 (Z.ltb_ge _ 6)) by lia.
  replace (getHours t >=? 23) with false
    by (symmetry; rewrite Z.geb_leb; apply Z.leb_gt; lia).
  reflexivity.
Qed.

Lemma adjust_hours (t : Z) : 6 <= getHours (adjustToBusinessHours t) <= 22.
Proof.
  decompose_time t.
  rewrite adjust_fields by auto.
  destruct (H <? 6) eqn:E1; [|destruct (H >=? 23) eqn:E2].
  - destruct (time_fields D 9 0 S) as (_ & -> & _); lia.
  - destruct (time_fields (D + 1) 9 0 S) as (_ & -> & _); lia.
  - apply Z.ltb_ge in E1. rewrite Z.geb_leb in E2. apply Z.leb_gt in E2.
    destruct (time_fields D H Mi S) as (_ & -> & _); lia.
Qed.

Lemma map_idem {A} (f : A -> A) (l : list A) :
  (forall x, f (f x) = f x) -> map f (map f l) = map f l.
Proof. intros Hf. rewrite map_map. apply map_ext, Hf. Qed.

(** Running [fixTimestampIssues] a second time changes nothing. *)
Theorem fixTimestampIssues_idempotent (posts : list GeneratedPost)
    (comments : list GeneratedComment) :
  fixTimestampIssues (fst (fixTimestampIssues posts comments))
                     (snd (fixTimestampIssues posts comments))
  = fixTimestampIssues posts comments.
Proof.
  unfold fixTimestampIssues. cbv zeta. cbn [fst snd].
  rewrite map_idem.
  2: { intros p. simpl. rewrite (adjust_keep (adjustToBusinessHours _)) by
         (pose proof (adjust_hours (post_timestamp p)); lia). reflexivity. }
  rewrite map_idem; [reflexivity|].
  intros c. destruct (find_post _ (comment_post_id c)) as [post|] eqn:Ef;
    [|rewrite Ef; reflexivity].
  destruct (comment_timestamp c <? post_timestamp post) eqn:Elt; rewrite ?Ef, ?Elt;
    [|reflexivity].
  simpl. rewrite Ef. unfold getTime.
  replace (post_timestamp post + 15 * 60 * 1000 <? post_timestamp post) with false
    by (symmetry; apply Z.ltb_ge; lia).
  reflexivity.
Qed.

(** After [fixTimestampIssues], [validateTimestamps] on the fixed arrays
    reports no night-time post (neither the 02:00-05:00 error nor the
    before-06:00 warning) and no comment before its post. *)
Theorem fixTimestampIssues_validateTimestamps (posts : list GeneratedPost)
    (comments : list GeneratedComment) :
  let v := validateTimestamps (fst (fixTimestampIssues posts comments))
                              (snd (fixTimestampIssues posts comments)) in
  (forall m, In m (errors v) ->
     match m with MsgUnrealisticTimestamp _ _ | MsgBeforePost _ _ => False | _ => True end) /\
  (forall m, In m (warnings v) ->
     match m with MsgUnusualTimestamp _ _ => False | _ => True end).
Proof.
  set (ps := fst (fixTimestampIssues posts comments)).
  set (cs := snd (fixTimestampIssues posts comments)).
  assert (Hps : forall p, In p ps -> 6 <= getHours (post_timestamp p) <= 22).
  { intros p Hp. subst ps. unfold fixTimestampIssues in Hp. simpl in Hp.
    apply in_map_iff in Hp as (p0 & <- & _). apply adjust_hours. }
  assert (Hcs : forall c post, In c cs -> find_post ps (comment_post_id c) = Some post ->
                post_timestamp post <= comment_timestamp c).
  { intros c post Hc Ef. subst cs ps. unfold fixTimestampIssues in *. simpl in *.
    apply in_map_iff in Hc as (c0 & <- & _).
    destruct (find_post _ (comment_post_id c0)) as [post0|] eqn:E0.
    - destruct (comment_timestamp c0 <? post_timestamp post0) eqn:Elt; simpl in Ef.
      + rewrite E0 in Ef. injection Ef as <-. simpl. unfold getTime. lia.
      + rewrite E0 in Ef. injection Ef as <-. apply Z.ltb_ge in Elt. exact Elt.
    - rewrite E0 in Ef. discriminate Ef. }
  assert (Hpost : forall p, In p ps ->
            (if (2 <=? getHours (post_timestamp p)) && (getHours (post_timestamp p) <? 5)
             then [MsgUnrealisticTimestamp (post_id p) (getHours (post_timestamp p))]
             else []) = [] /\
            (if getHours (post_timestamp p) <? 6
             then [MsgUnusualTimestamp (post_id p) (getHours (post_timestamp p))]
             else []) = []).
  { intros p Hp. specialize (Hps p Hp).
    rewrite (proj2 (Z.ltb_ge _ 6)) by lia.
    rewrite (proj2 (Z.ltb_ge _ 5)) by lia. rewrite andb_false_r. auto. }
  unfold validateTimestamps. cbv zeta. cbn [errors warnings]. split.
  - intros m Hm. apply in_app_or in Hm as [Hm|Hm];
      apply in_flat_map in Hm as (x & Hx & Hm); apply in_map_iff in Hx as (y & <- & Hy).
    + simpl in Hm. rewrite (proj1 (Hpost y Hy)) in Hm. destruct Hm.
    + unfold check_comment_time in Hm.
      destruct (find_post ps (comment_post_id y)) as [post|] eqn:Ef.
      2: { simpl in Hm. destruct Hm as [<-|[]]. exact I. }
      pose proof (Hcs y post Hy Ef) as Hle.
      assert (He1 : forall m, In m (if negb (isValidCommentTime (post_timestamp post)
                                                    (comment_timestamp y))
                                     then let timeDiff := getTime (comment_timestamp y)
                                                          - getTime (post_timestamp post) in
                                          if timeDiff <? 0
                                          then [MsgBeforePost (comment_id y) (- timeDiff)]
                                          else [MsgTooLate (comment_id y) timeDiff]
                                     else []) ->
                           match m with MsgUnrealisticTimestamp _ _ | MsgBeforePost _ _ => False
                           | _ => True end).
      { intros m' Hm'. destruct (negb _); [|destruct Hm']. cbv zeta in Hm'. unfold getTime in Hm'.
        rewrite (proj2 (Z.ltb_ge _ 0)) in Hm' by lia. destruct Hm' as [<-|[]]. exact I. }
      destruct (parent_comment_id y) as [parent|];
        [destruct (truthy (Some parent));
         [destruct (find_comment cs parent) as [pc|];
          [destruct (_ <? 0); [|destruct (_ <? ms_minute)]|]|]|];
        simpl in Hm; try (apply in_app_or in Hm as [Hm|[<-|[]]]; [exact (He1 m Hm)|exact I]);
        exact (He1 m Hm).
  - intros m Hm. apply in_app_or in Hm as [Hm|Hm];
      apply in_flat_map in Hm as (x & Hx & Hm); apply in_map_iff in Hx as (y & <- & Hy).
    + simpl in Hm. rewrite (proj2 (Hpost y Hy)) in Hm. destruct Hm.
    + unfold check_comment_time in Hm.
      destruct (find_post ps (comment_post_id y)) as [post|]; [|destruct Hm].
      destruct (parent_comment_id y) as [parent|];
        [destruct (truthy (Some parent));
         [destruct (find_comment cs parent) as [pc|];
          [destruct (_ <? 0); [|destruct (_ <? ms_minute)]|]|]|];
        simpl in Hm; try destruct Hm as [<-|[]]; try destruct Hm; exact I.
Qed.

(* ------------------------------------------------------------------ *)
(** ** Further properties: [validatePersonaDistribution] *)

Lemma insert_by_head_max {A} (f : A -> Z) (x : A) (l : list A) :
  head_max f l -> head_max f (insert_by (fun a b => f b <? f a) x l).
Proof.
  destruct l as [|y l]; simpl; [intros _ z []|].
  intros H. destruct (f x <? f y) eqn:E; simpl.
  - apply Z.ltb_lt in E. intros z Hz.
    apply (Permutation_in _ (insert_by_perm _ x l)) in Hz as [<-|Hz]; [lia|auto].
  - apply Z.ltb_ge in E. intros z [<-|Hz]; [lia|]. specialize (H z Hz). lia.
Qed.

Lemma sort_by_head_max {A} (f : A -> Z) (l : list A) :
  head_max f (sort_by (fun a b => f b <? f a) l).
Proof.
  induction l as [|x l IH]; simpl; [exact I|]. apply insert_by_head_max, IH.
Qed.

(** The persona counts of [validatePersonaDistribution]: a username maps to
    its number of posts and comments, and is absent when that is 0. *)
Lemma persona_counts_get (posts : list GeneratedPost) (comments : list GeneratedComment)
    (k : string) :
  let n := List.count_occ string_dec
             (map author_username posts ++ map comment_username comments) k in
  map_get (fold_left (fun m c => inc_count m (comment_username c)) comments
             (fold_left (fun m p => inc_count m (author_username p)) posts [])) k
  = if (n =? 0)%nat then None else Some (Z.of_nat n).
Proof.
  cbv zeta. rewrite count_occ_app.
  rewrite (fold_inc_count_get comment_username), (fold_inc_count_get author_username).
  simpl.
  destruct (List.count_occ string_dec (map author_username posts) k) as [|a] eqn:Ea;
    simpl; [reflexivity|].
  destruct (List.count_occ string_dec (map comment_username comments) k); f_equal; lia.
Qed.

(** [validatePersonaDistribution] reports no error exactly when no username
    authors more than half of all posts and comments. *)
Theorem validatePersonaDistribution_iff (posts : list GeneratedPost)
    (comments : list GeneratedComment) :
  isValid (validatePersonaDistribution posts comments) = true <->
  forall user,
    (2 * List.count_occ string_dec
           (map author_username posts ++ map comment_username comments) user
     <= length posts + length comments)%nat.
Proof.
  unfold validatePersonaDistribution. simpl.
  set (counts := fold_left (fun m c => inc_count m (comment_username c)) comments
                   (fold_left (fun m p => inc_count m (author_username p)) posts [])).
  pose proof (persona_counts_get posts comments) as Hget. fold counts in Hget.
  assert (Hnd : List.NoDup (map fst counts)).
  { apply fold_inc_count_NoDup, fold_inc_count_NoDup. constructor. }
  pose proof (sort_by_head_max snd counts) as Hmax.
  pose proof (sort_by_perm (fun a b => snd b <? snd a) counts) as Hperm.
  destruct (sort_by _ counts) as [|[u c] rest] eqn:Es; simpl.
  - split; [|reflexivity]. intros _ user.
    specialize (Hget user). simpl in Hget.
    destruct (_ =? 0)%nat eqn:E0; [apply Nat.eqb_eq in E0; lia|].
    apply map_get_In in Hget. apply (Permutation_in _ (Permutation_sym Hperm)) in Hget.
    destruct Hget.
  - assert (Hc : forall user, In (user, Z.of_nat (List.count_occ string_dec
                   (map author_username posts ++ map comment_username comments) user)) counts
                 \/ List.count_occ string_dec
                   (map author_username posts ++ map comment_username comments) user = 0%nat).
    { intros user. specialize (Hget user). simpl in Hget.
      destruct (_ =? 0)%nat eqn:E0; [right; apply Nat.eqb_eq, E0|].
      left. apply map_get_In, Hget. }
    assert (Huc : In (u, c) counts)
      by (apply (Permutation_in _ Hperm); left; reflexivity).
    pose proof (In_map_get _ _ _ Hnd Huc) as Eu. rewrite Hget in Eu. simpl in Eu.
    destruct (_ =? 0)%nat; [discriminate Eu|]. injection Eu as Eu.
    split.
    + intros Hv user. destruct (Hc user) as [Hin|Hz]; [|rewrite Hz; lia].
      apply (Permutation_in _ (Permutation_sym Hperm)) in Hin as [Eq|Hin].
      * injection Eq as -> Eq.
        destruct (_ <? _) eqn:Elt in Hv; [discriminate Hv|]. apply Z.ltb_ge in Elt. lia.
      * specialize (Hmax _ Hin). simpl in Hmax.
        destruct (_ <? _) eqn:Elt in Hv; [discriminate Hv|]. apply Z.ltb_ge in Elt. lia.
    + intros H. specialize (H u).
      destruct (_ <? _) eqn:Elt; [|reflexivity]. apply Z.ltb_lt in Elt. lia.
Qed.

(* ------------------------------------------------------------------ *)
(** ** Further properties: [calculateTextSimilarity], [validateTopicDiversity] *)

Lemma NoDup_same_length (l1 l2 : list string) :
  List.NoDup l1 -> List.NoDup l2 -> (forall x, In x l1 <-> In x l2) ->
  length l1 = length l2.
Proof.
  intros H1 H2 E. apply Nat.le_antisymm; apply List.NoDup_incl_length; auto;
    intros x; apply E.
Qed.

Lemma words_of_NoDup (s : string) : List.NoDup (words_of s).
Proof. apply dedup_NoDup. Qed.

(** [calculateTextSimilarity] does not depend on the order of its two
    texts. *)
Theorem calculateTextSimilarity_comm (text1 text2 : string) :
  calculateTextSimilarity text1 text2 = calculateTextSimilarity text2 text1.
Proof.
  unfold calculateTextSimilarity.
  pose proof (words_of_NoDup text1) as N1. pose proof (words_of_NoDup text2) as N2.
  destruct (words_of text1) as [|a w1] eqn:E1, (words_of text2) as [|b w2] eqn:E2;
    try reflexivity.
  f_equal; f_equal.
  - apply NoDup_same_length; try (apply List.NoDup_filter; assumption).
    intros x. rewrite !filter_In, !str_mem_In. tauto.
  - apply NoDup_same_length; try apply dedup_NoDup.
    intros x. rewrite !dedup_In, !in_app_iff. tauto.
Qed.

(** A text compared with itself: its word count twice, or [(1, 1)] when it
    has no word longer than three letters. *)
Lemma calculateTextSimilarity_self (text : string) :
  exists n, 1 <= n /\ calculateTextSimilarity text text = (n, n).
Proof.
  unfold calculateTextSimilarity.
  pose proof (words_of_NoDup text) as N.
  destruct (words_of text) as [|a w] eqn:E; [exists 1; split; [lia|reflexivity]|].
  exists (Z.of_nat (length (a :: w))). split; [simpl; lia|].
  f_equal; f_equal.
  - rewrite List.forallb_filter_id; [reflexivity|].
    apply forallb_forall. intros x Hx. apply str_mem_In, Hx.
  - apply NoDup_same_length; try apply dedup_NoDup; [exact N|].
    intros x. rewrite dedup_In, in_app_iff. tauto.
Qed.

Lemma pairs_from_In {A} (pre mid suf : list A) (p q : A) :
  In (p, q) (pairs_from (pre ++ p :: mid ++ q :: suf)).
Proof.
  induction pre as [|x pre IH]; simpl.
  - apply in_or_app. left. apply in_map. apply in_or_app. right. left. reflexivity.
  - apply in_or_app. right. exact IH.
Qed.

(** Two posts (in this order in the array) whose titles are equal up to
    letter case make [validateTopicDiversity] fail, with a too-similar error
    naming them. *)
Theorem validateTopicDiversity_same_title (pre mid suf : list GeneratedPost)
    (p q : GeneratedPost) :
  toLowerCase (title p) = toLowerCase (title q) ->
  let v := validateTopicDiversity (pre ++ p :: mid ++ q :: suf) in
  isValid v = false /\
  exists n, In (MsgTooSimilar (post_id p) (post_id q) n n) (errors v).
Proof.
  intros Ht. cbv zeta.
  destruct (calculateTextSimilarity_self (toLowerCase (title p))) as (n & Hn & Es).
  assert (Hin : In (MsgTooSimilar (post_id p) (post_id q) n n)
                  (errors (validateTopicDiversity (pre ++ p :: mid ++ q :: suf)))).
  { unfold validateTopicDiversity. cbv zeta. cbn [errors].
    match goal with
    | |- In _ (flat_map fst (map ?f _)) =>
        apply in_flat_map; exists (f (p, q));
        split; [exact (in_map f _ _ (pairs_from_In pre mid suf p q))|]
    end.
    cbv beta iota. rewrite <- Ht, Es.
    rewrite (proj2 (Z.ltb_lt (7 * n) (10 * n))) by lia. left. reflexivity. }
  split; [|exists n; exact Hin].
  unfold validateTopicDiversity in *. simpl in *.
  destruct (flat_map fst _) as [|m ms]; [destruct Hin|reflexivity].
Qed.

(* ------------------------------------------------------------------ *)
(** ** Further properties: [selectPostAuthor] *)

Lemma bind_step {A B} (m : M A) (k : A -> M B) (st : gen_state) a s :
  m st = inr (a, s) -> bindM m k st = k a s.
Proof. intros E. unfold bindM. rewrite E. reflexivity. Qed.

Lemma insert_by_head_le {A} (lt : A -> A -> bool) (f : A -> Z)
    (Hlt : forall a b, lt a b = true -> f a <= f b)
    (Hge : forall a b, lt a b = false -> f b <= f a) (x : A) (l : list A) :
  head_max (fun a => - f a) l -> head_max (fun a => - f a) (insert_by lt x l).
Proof.
  destruct l as [|y l]; simpl; [intros _ z []|].
  intros H. destruct (lt y x) eqn:E; simpl.
  - apply Hlt in E. intros z Hz.
    apply (Permutation_in _ (insert_by_perm _ x l)) in Hz as [<-|Hz]; [lia|auto].
  - apply Hge in E. intros z [<-|Hz]; [lia|]. specialize (H z Hz). lia.
Qed.

(** The head of [sort_by lt] has the least [f] when [lt] orders by [f]
    first. *)
Lemma sort_by_head_le {A} (lt : A -> A -> bool) (f : A -> Z)
    (Hlt : forall a b, lt a b = true -> f a <= f b)
    (Hge : forall a b, lt a b = false -> f b <= f a) (l : list A) :
  head_max (fun a => - f a) (sort_by lt l).
Proof.
  induction l as [|x l IH]; simpl; [exact I|]. apply insert_by_head_le; assumption.
Qed.

Lemma init_personas (personas : list Persona) : forall st,
  exists st1, forM personas initPersonaUsage st = inr (tt, st1) /\
    rng_pos st1 = rng_pos st /\
    (forall q, In q personas -> map_has (personaMatcher st1) (username q) = true) /\
    (forall name, map_has (personaMatcher st) name = true ->
                  map_has (personaMatcher st1) name = true) /\
    (forall name, postsOf (personaMatcher st1) name = postsOf (personaMatcher st) name).
Proof.
  induction personas as [|p personas IH]; intros st; simpl.
  - exists st. repeat split; auto; intros q [].
  - unfold initPersonaUsage at 1. unfold bindM at 1 2. unfold getPm, getsM.
    destruct (map_has (personaMatcher st) (username p)) eqn:Eh.
    + destruct (IH st) as (st1 & E & Hr & Hq & Hk & Hp).
      exists st1. unfold retM. rewrite E. repeat split; auto.
      intros q [<-|Hin]; [exact (Hk _ Eh) | exact (Hq q Hin)].
    + unfold putPm, modifyM.
      set (st2 := set_personaMatcher _ st).
      destruct (IH st2) as (st1 & E & Hr & Hq & Hk & Hp).
      exists st1. rewrite E. repeat split.
      * rewrite Hr. reflexivity.
      * intros q [<-|Hin]; [|exact (Hq q Hin)].
        apply Hk. simpl. rewrite map_has_set, String.eqb_refl. reflexivity.
      * intros name Hn. apply Hk. simpl. rewrite map_has_set, Hn. apply orb_true_r.
      * intros name. rewrite Hp. simpl. unfold postsOf. rewrite map_get_set.
        destruct (String.eqb name (username p)) eqn:En; [|reflexivity].
        apply String.eqb_eq in En. subst name. unfold map_has in Eh.
        destruct (map_get (personaMatcher st) (username p)); [discriminate Eh|reflexivity].
Qed.

Lemma mapM_with_usage (t : list (string * PersonaUsageTracker)) (personas : list Persona)
    (st : gen_state) :
  (forall q, In q personas -> map_has t (username q) = true) ->
  exists wu, mapM (fun p => let* u := deref (map_get t (username p)) in retM (p, u))
               personas st = inr (wu, st) /\
    map fst wu = personas /\
    (forall pu, In pu wu -> map_get t (username (fst pu)) = Some (snd pu)).
Proof.
  induction personas as [|p personas IH]; intros Hhas; simpl.
  - exists []. repeat split. intros pu [].
  - destruct (IH (fun q Hq => Hhas q (or_intror Hq))) as (wu & E & Hf & Hg).
    pose proof (Hhas p (or_introl eq_refl)) as Hp. unfold map_has in Hp.
    destruct (map_get t (username p)) as [u|] eqn:Eu; [|discriminate Hp].
    exists ((p, u) :: wu). split; [|split].
    + cbn [mapM]. rewrite (bind_step _ _ st (p, u) st) by reflexivity.
      rewrite (bind_step _ _ _ _ _ E). reflexivity.
    + simpl. rewrite Hf. reflexivity.
    + intros pu [<-|Hin]; [exact Eu | exact (Hg pu Hin)].
Qed.

(** With no persona, [selectPostAuthor] throws: the head of the empty
    sorted list is [undefined]. *)
Theorem selectPostAuthor_empty (postIndex : Z) (st : gen_state) :
  selectPostAuthor [] postIndex st = inl TypeError.
Proof. reflexivity. Qed.

Lemma selectPostAuthor_spec (personas : list Persona) (postIndex : Z)
    (st : gen_state) :
  personas <> [] ->
  exists p st', selectPostAuthor personas postIndex st = inr (p, st') /\
    In p personas /\
    (forall q, In q personas ->
       postsOf (personaMatcher st) (username p) <= postsOf (personaMatcher st) (username q)) /\
    postsOf (personaMatcher st') (username p) = postsOf (personaMatcher st) (username p) + 1 /\
    (forall name, name <> username p ->
       postsOf (personaMatcher st') name = postsOf (personaMatcher st) name).
Proof.
  intros Hne. unfold selectPostAuthor.
  destruct (init_personas personas st) as (st1 & Einit & _ & Hhas1 & _ & Hp1).
  rewrite (bind_step _ _ _ _ _ Einit).
  unfold bindM at 1. unfold getPm at 1, getsM at 1.
  destruct (mapM_with_usage (personaMatcher st1) personas st1 Hhas1) as (wu & Ewu & Hf & Hg).
  rewrite (bind_step _ _ _ _ _ Ewu).
  set (lt := fun a b : Persona * PersonaUsageTracker =>
               if negb (postCount (snd a) =? postCount (snd b))
               then postCount (snd a) <? postCount (snd b)
               else lastUsedIndex (snd a) <? lastUsedIndex (snd b)).
  pose proof (sort_by_head_le lt (fun a => postCount (snd a))) as Hmin.
  pose proof (sort_by_perm lt wu) as Hperm.
  destruct (sort_by lt wu) as [|[p u] rest] eqn:Es.
  { exfalso. apply Permutation_nil in Hperm. subst wu. apply Hne. exact (eq_sym Hf). }
  assert (Hmin' : forall z, In z rest -> postCount u <= postCount (snd z)).
  { specialize (Hmin ltac:(intros a b E; subst lt; simpl in E;
                  destruct (postCount (snd a) =? postCount (snd b)) eqn:E2; simpl in E;
                  [apply Z.eqb_eq in E2; lia | apply Z.ltb_lt in E; lia])
                 ltac:(intros a b E; subst lt; simpl in E;
                  destruct (postCount (snd a) =? postCount (snd b)) eqn:E2; simpl in E;
                  [apply Z.eqb_eq in E2; lia | apply Z.ltb_ge in E; lia]) wu).
    rewrite Es in Hmin. simpl in Hmin. intros z Hz. specialize (Hmin z Hz). lia. }
  assert (Hpu : In (p, u) wu) by (apply (Permutation_in _ Hperm); left; reflexivity).
  pose proof (Hg _ Hpu) as Eu. simpl in Eu.
  simpl. unfold getPm, getsM, bindM. simpl. rewrite Eu. simpl.
  eexists p, _. split; [reflexivity|]. split.
  { rewrite <- Hf. apply (in_map fst) in Hpu. exact Hpu. }
  split; [|split].
  - intros q Hq. rewrite <- Hf in Hq. apply in_map_iff in Hq as ([q' v] & <- & Hin).
    simpl. rewrite <- !Hp1. unfold postsOf. rewrite Eu. pose proof (Hg _ Hin) as Ev. simpl in Ev. rewrite Ev.
    apply (Permutation_in _ (Permutation_sym Hperm)) in Hin as [Eq|Hin];
      [injection Eq as _ ->; lia | exact (Hmin' _ Hin)].
  - unfold postsOf at 1. simpl. rewrite map_get_set, String.eqb_refl. simpl.
    rewrite <- Hp1. unfold postsOf. rewrite Eu. reflexivity.
  - intros name Hn. unfold postsOf at 1. simpl. rewrite map_get_set.
    rewrite (proj2 (String.eqb_neq _ _) Hn). rewrite <- Hp1. reflexivity.
Qed.

Lemma selectPostAuthor_member (personas : list Persona) (postIndex : Z) (st : gen_state) p st' :
  selectPostAuthor personas postIndex st = inr (p, st') -> In p personas.
Proof.
  intros H. destruct personas as [|q qs]; [discriminate H|].
  destruct (selectPostAuthor_spec (q :: qs) postIndex st ltac:(discriminate))
    as (p' & st'' & E & Hin & _). rewrite H in E. injection E as -> _. exact Hin.
Qed.

(** With at least one persona, [selectPostAuthor] returns one of them whose
    post count is the least among them, adds one to that count, and leaves
    the post counts of every other username unchanged. *)
Theorem selectPostAuthor_least_posts (personas : list Persona) (postIndex : Z)
    (st : gen_state) :
  personas <> [] ->
  exists p st', selectPostAuthor personas postIndex st = inr (p, st') /\
    In p personas /\
    (forall q, In q personas ->
       postsOf (personaMatcher st) (username p) <= postsOf (personaMatcher st) (username q)) /\
    postsOf (personaMatcher st') (username p) = postsOf (personaMatcher st) (username p) + 1 /\
    (forall name, name <> username p ->
       postsOf (personaMatcher st') name = postsOf (personaMatcher st) name).
Proof. exact (selectPostAuthor_spec personas postIndex st). Qed.

(* ------------------------------------------------------------------ *)
(** ** Further properties: [isPersonaDistributionBalanced] *)

Lemma fold_max_ge (cs : list Z) : forall c x,
  In x (c :: cs) -> x <= fold_left Z.max cs c.
Proof.
  induction cs as [|d cs IH]; intros c x Hx; simpl in *.
  - destruct Hx as [<-|[]]. lia.
  - destruct Hx as [<-|[<-|Hx]].
    + specialize (IH (Z.max c d) (Z.max c d) (or_introl eq_refl)). lia.
    + specialize (IH (Z.max c d) (Z.max c d) (or_introl eq_refl)). lia.
    + apply IH. right. exact Hx.
Qed.

Lemma fold_max_in (cs : list Z) : forall c, In (fold_left Z.max cs c) (c :: cs).
Proof.
  induction cs as [|d cs IH]; intros c; simpl; [left; reflexivity|].
  destruct (IH (Z.max c d)) as [E|E]; [|right; right; exact E].
  rewrite <- E. destruct (Z.max_spec c d) as [[_ ->]|[_ ->]]; auto.
Qed.

Lemma fold_add_ge (l : list Z) : forall a,
  (forall y, In y l -> 0 <= y) ->
  a <= fold_left Z.add l a /\ forall x, In x l -> a + x <= fold_left Z.add l a.
Proof.
  induction l as [|y l IH]; intros a Hnn; simpl; [split; [lia | intros x []]|].
  destruct (IH (a + y) (fun z Hz => Hnn z (or_intror Hz))) as [H1 H2].
  pose proof (Hnn y (or_introl eq_refl)). split; [lia|].
  intros x [<-|Hx]; [lia|]. specialize (H2 x Hx). lia.
Qed.

(** When every tracked persona has a non-negative number of posts plus
    comments, [isPersonaDistributionBalanced] holds exactly when no persona
    has more than half of the total. *)
Theorem isPersonaDistributionBalanced_iff (t : list (string * PersonaUsageTracker)) :
  (forall e, In e t -> 0 <= postCount (snd e) + commentCount (snd e)) ->
  let total := fold_left Z.add
                 (map (fun e => postCount (snd e) + commentCount (snd e)) t) 0 in
  isPersonaDistributionBalanced t = true <->
  forall e, In e t -> 2 * (postCount (snd e) + commentCount (snd e)) <= total.
Proof.
  intros Hnn total. unfold isPersonaDistributionBalanced. fold total.
  set (contents := map (fun e => postCount (snd e) + commentCount (snd e)) t) in *.
  assert (Hc : forall y, In y contents -> 0 <= y).
  { intros y Hy. subst contents. apply in_map_iff in Hy as (e & <- & He). auto. }
  destruct (fold_add_ge contents 0 Hc) as [Ht0 Htx].
  assert (Hin : forall e, In e t -> In (postCount (snd e) + commentCount (snd e)) contents)
    by (intros e He; apply (in_map (fun e => postCount (snd e) + commentCount (snd e))), He).
  destruct (total =? 0) eqn:Ez.
  - apply Z.eqb_eq in Ez. split; [|reflexivity]. intros _ e He.
    specialize (Htx _ (Hin e He)). fold total in Htx. lia.
  - apply Z.eqb_neq in Ez.
    destruct contents as [|c cs] eqn:Ec.
    + exfalso. apply Ez. reflexivity.
    + rewrite (proj2 (Z.ltb_lt 0 total)) by lia. rewrite Z.leb_le. split.
      * intros Hm e He. pose proof (fold_max_ge cs c _ (Hin e He)). lia.
      * intros H. destruct t as [|e t']; [discriminate Ec|].
        injection Ec as Ec1 Ec2. destruct (fold_max_in cs c) as [Em|Em].
        -- rewrite <- Em, <- Ec1. apply H. left. reflexivity.
        -- rewrite <- Ec2 in Em. apply in_map_iff in Em as (e' & Ee & He).
           rewrite Ec2 in Ee. rewrite <- Ee. apply H. right. exact He.
Qed.

(* ------------------------------------------------------------------ *)
(** ** Further properties: the calendar [generate] returns *)

Lemma mapM_Forall2 {A B} (R : A -> B -> Prop) (f : A -> M B) (l : list A) :
  forall st r st',
  (forall x s y s', In x l -> f x s = inr (y, s') -> R x y) ->
  mapM f l st = inr (r, st') -> List.Forall2 R l r.
Proof.
  induction l as [|x l IH]; intros st r st' Hf H; simpl in H.
  - apply ret_inr in H as [-> _]. constructor.
  - step_bind_as H y s1 Ey. step_bind_as H rest s2 Erest. apply ret_inr in H as [-> _].
    constructor; [exact (Hf _ _ _ _ (or_introl eq_refl) Ey)|].
    exact (IH _ _ _ (fun x' s y' s' Hx => Hf x' s y' s' (or_intror Hx)) Erest).
Qed.

Lemma Forall2_map_eq {A B C} (g : B -> C) (h : A -> C) (l : list A) (r : list B) :
  List.Forall2 (fun x y => g y = h x) l r -> map g r = map h l.
Proof. induction 1; simpl; congruence. Qed.

Lemma Forall2_In_r {A B} (R : A -> B -> Prop) (l : list A) (r : list B) y :
  List.Forall2 R l r -> In y r -> exists x, In x l /\ R x y.
Proof.
  induction 1 as [|x y' l r Hxy _ IH]; simpl; [intros []|].
  intros [<-|Hy]; [exists x; auto|]. destruct (IH Hy) as (x' & Hx' & Hr). eauto.
Qed.

(** The phases of a successful [generate] run, with the post plans and the
    posts. *)
Lemma generate_phases (rng : nat -> draw) aiP aiC (input : CalendarInput)
    (startClock endClock : Z) (st : gen_state) cal st' :
  generate rng aiP aiC input startClock endClock st = inr (cal, st') ->
  exists plans posts0 comments0 s1 s2 s3 s4,
    createWeeklyPostPlan rng input (getCurrentWeekStart startClock) s1 = inr (plans, s2) /\
    generatePosts aiP plans input s2 = inr (posts0, s3) /\
    generateComments rng aiC posts0 plans input s3 = inr (comments0, s4) /\
    (posts cal, comments cal) = fixTimestampIssues posts0 comments0 /\
    isValid (validateContentCalendar (posts cal) (comments cal)) = true.
Proof.
  intros H. unfold generate in H.
  step_bind_as H u st0 Ereset. step_bind_as H plans st1 Eplans.
  step_bind_as H posts0 st2 Eposts. step_bind_as H comments0 st3 Ecomments.
  destruct (fixTimestampIssues posts0 comments0) as [p c] eqn:Efix.
  destruct (isValid (validateContentCalendar p c)) eqn:Ev; simpl in H; [|discriminate H].
  apply ret_inr in H as [-> _]. simpl.
  exists plans, posts0, comments0, st0, st1, st2, st3. auto.
Qed.

Lemma createWeeklyPostPlan_plans (rng : nat -> draw) (input : CalendarInput) (weekStart : Z)
    (st : gen_state) plans st' :
  createWeeklyPostPlan rng input weekStart st = inr (plans, st') ->
  List.Forall2 (fun i plan => postIndex plan = Z.of_nat i /\
                              In (author plan) (personas input))
    (seq 0 (Z.to_nat (postsPerWeek (company input)))) plans.
Proof.
  intros H. eapply mapM_Forall2; [|exact H].
  intros i s plan s' _ Hf. cbv beta zeta in Hf.
  step_bind_as Hf sub s1 Esub. step_bind_as Hf kws s2 Ekws.
  step_bind_as Hf a s3 Ea. step_bind_as Hf ts s4 Ets.
  apply ret_inr in Hf as [-> _]. simpl.
  split; [reflexivity | exact (selectPostAuthor_member _ _ _ _ _ Ea)].
Qed.

Lemma generatePosts_posts aiP (plans : list PostPlan) (input : CalendarInput)
    (st : gen_state) posts0 st' :
  generatePosts aiP plans input st = inr (posts0, st') ->
  List.Forall2 (fun plan post =>
                  post_id post = post_id_of (Z.to_nat (postIndex plan + 1)) /\
                  author_username post = username (author plan))
    plans posts0.
Proof.
  intros H. eapply mapM_Forall2; [|exact H].
  intros plan s post s' _ Hf.
  step_bind_as Hf res s1 Eres. apply ret_inr in Hf as [-> _]. simpl. auto.
Qed.

(** A calendar that [generate] returns has [postsPerWeek] posts, with ids
    ["P1"], ["P2"], ... in order, each written by one of the input
    personas. *)
Theorem generate_posts_ids_authors (rng : nat -> draw) aiP aiC (input : CalendarInput)
    (startClock endClock : Z) (st : gen_state) cal st' :
  generate rng aiP aiC input startClock endClock st = inr (cal, st') ->
  map post_id (posts cal) = map post_id_of (seq 1 (Z.to_nat (postsPerWeek (company input)))) /\
  (forall p, In p (posts cal) -> In (author_username p) (map username (personas input))).
Proof.
  intros H.
  destruct (generate_phases _ _ _ _ _ _ _ _ _ H)
    as (plans & posts0 & comments0 & s1 & s2 & s3 & s4 & Epl & Eps & _ & Efix & _).
  pose proof (createWeeklyPostPlan_plans _ _ _ _ _ _ Epl) as Fpl.
  pose proof (generatePosts_posts _ _ _ _ _ _ Eps) as Fps.
  unfold fixTimestampIssues in Efix. injection Efix as Ep _.
  assert (Hp : posts cal = map (fun p => mkPost (post_id p) (subreddit p) (title p) (body p)
                             (author_username p) (adjustToBusinessHours (post_timestamp p))
                             (keyword_ids p)) posts0) by exact Ep.
  clear Ep. rewrite Hp. split.
  - transitivity (map post_id posts0); [rewrite map_map; reflexivity|].
    assert (E1 : map post_id posts0
                 = map (fun plan => post_id_of (Z.to_nat (postIndex plan + 1))) plans).
    { apply Forall2_map_eq. eapply List.Forall2_impl; [|exact Fps]. intros ? ? []; auto. }
    assert (E2 : map (fun plan => post_id_of (Z.to_nat (postIndex plan + 1))) plans
                 = map (fun i => post_id_of (Z.to_nat (Z.of_nat i + 1)))
                       (seq 0 (Z.to_nat (postsPerWeek (company input))))).
    { apply Forall2_map_eq. eapply List.Forall2_impl; [|exact Fpl].
      intros i plan [-> _]. reflexivity. }
    rewrite E1, E2, <- seq_shift, map_map. apply map_ext. intros i.
    f_equal. lia.
  - intros p Hin. apply in_map_iff in Hin as (p0 & <- & Hin). simpl.
    destruct (Forall2_In_r _ _ _ _ Fps Hin) as (plan & Hplan & _ & Ea).
    destruct (Forall2_In_r _ _ _ _ Fpl Hplan) as (i & _ & _ & Hauth).
    rewrite Ea. apply in_map, Hauth.
Qed.

(** In a calendar that [generate] returns, every post is between 06:00 and
    22:59, and every comment belongs to a post of the calendar and comes at
    least one minute and less than seven days after it. *)
Theorem generate_timing (rng : nat -> draw) aiP aiC (input : CalendarInput)
    (startClock endClock : Z) (st : gen_state) cal st' :
  generate rng aiP aiC input startClock endClock st = inr (cal, st') ->
  (forall p, In p (posts cal) -> 6 <= getHours (post_timestamp p) <= 22) /\
  (forall c, In c (comments cal) ->
     exists p, In p (posts cal) /\ post_id p = comment_post_id c /\
       ms_minute <= comment_timestamp c - post_timestamp p < 7 * ms_day).
Proof.
  intros H.
  destruct (generate_phases _ _ _ _ _ _ _ _ _ H)
    as (plans & posts0 & comments0 & s1 & s2 & s3 & s4 & _ & _ & _ & Efix & Hv).
  split.
  - unfold fixTimestampIssues in Efix. injection Efix as Ep _.
    intros p Hp. rewrite Ep in Hp. apply in_map_iff in Hp as (p0 & <- & _).
    apply adjust_hours.
  - unfold validateContentCalendar in Hv. simpl in Hv. rewrite !andb_true_iff in Hv.
    destruct Hv as (_ & _ & Hv & _).
    unfold validateTimestamps in Hv. simpl in Hv.
    apply Nat.eqb_eq, length_zero_iff_nil, List.app_eq_nil in Hv as [_ Hv].
    intros c Hc.
    pose proof (flat_map_nil _ _ Hv _ (in_map _ _ _ Hc)) as Ec.
    apply check_comment_time_ok in Ec as (p & Ef & Hr & _).
    exists p. unfold find_post in Ef. apply find_some in Ef as [Hin Eid].
    apply String.eqb_eq in Eid. auto.
Qed.



(** [selectCommentAuthors] returns input personas, and possibly the post
    author. *)
Lemma selectCommentAuthors_members (rng : nat -> draw) (personas : list Persona)
    (postAuthor : Persona) (postIndex : Z) (st : gen_state) res st' :
  selectCommentAuthors rng personas postAuthor postIndex st = inr (res, st') ->
  forall x, In x res -> In x personas \/ x = postAuthor.
Proof.
  intros H. unfold selectCommentAuthors in H.
  remember (List.filter _ personas) as avail eqn:Eav in H.
  assert (Havail : forall x, In x avail -> In x personas)
    by (intros x Hx; rewrite Eav in Hx; apply filter_In in Hx; tauto).
  clear Eav.
  destruct avail as [|a rest].
  { apply ret_inr in H as [-> _]. intros x [<-|[]]. right. reflexivity. }
  step_bind_as H r s1 Er. step_bind_as H t s2 Et.
  step_bind_as H wu s3 Ewu. pose proof (mapM_pair_fst _ _ _ _ _ Ewu) as Hfst.
  step_bind_as H u s4 Efor. step_bind_as H r2 s5 Er2.
  assert (Hsel : forall x n lt, In x (map fst (firstn n (sort_by lt wu))) -> In x personas).
  { intros x n lt Hx. apply in_map_iff in Hx as (pu & <- & Hpu).
    apply in_firstn in Hpu. apply (Permutation_in _ (sort_by_perm _ _)) in Hpu.
    apply Havail. rewrite <- Hfst. apply in_map, Hpu. }
  destruct (_ && _).
  - step_bind_as H t2 s6 E6. step_bind_as H u2 s7 E7. step_bind_as H v2 s8 E8.
    apply ret_inr in H as [-> _].
    intros x Hx. apply in_app_or in Hx as [Hx|[<-|[]]]; [left; exact (Hsel _ _ _ Hx)|].
    right. reflexivity.
  - apply ret_inr in H as [-> _]. intros x Hx. left. exact (Hsel _ _ _ Hx).
Qed.

Lemma createCommentPlans_authors (rng : nat -> draw) (personas : list Persona)
    (targetCount : Z) (postAuthor : Persona) (st : gen_state) plans st' :
  createCommentPlans rng personas targetCount postAuthor st = inr (plans, st') ->
  forall plan, In plan plans -> In (cplan_author plan) personas.
Proof.
  intros H.
  assert (F : List.Forall2 (fun ip plan => cplan_author plan = snd ip)
                (combine (seq 0 (Z.to_nat (Z.min targetCount (Z.of_nat (length personas)))))
                   personas) plans).
  { eapply mapM_Forall2; [|exact H].
    intros [i persona] s y s' _ Hf. cbv beta in Hf.
    step_bind_as Hf d s1 Ed. destruct d as [[pos par] m].
    apply ret_inr in Hf as [-> _]. reflexivity. }
  intros plan Hp. destruct (Forall2_In_r _ _ _ _ F Hp) as ([i persona] & Hin & ->).
  exact (in_combine_r _ _ _ _ Hin).
Qed.

Lemma generateThread_authors (rng : nat -> draw) aiC (input : CalendarInput)
    (post : GeneratedPost) (plans : list CommentPlan) (names : list string) :
  forall all counter st res st',
  (forall plan, In plan plans -> In (username (cplan_author plan)) names) ->
  (forall c, In c all -> In (comment_username c) names) ->
  generateThread rng aiC input post plans all counter st = inr (res, st') ->
  forall c, In c (fst res) -> In (comment_username c) names.
Proof.
  induction plans as [|pl plans IH]; intros all counter st res st' Hpl Hall H; simpl in H.
  - apply ret_inr in H as [-> _]. exact Hall.
  - step_bind_as H text s1 Et. step_bind_as H ts s2 Ets.
    eapply IH; [intros; apply Hpl; right; assumption | | exact H].
    intros c Hc. apply in_app_or in Hc as [Hc|[<-|[]]]; [exact (Hall c Hc)|].
    simpl. apply Hpl. left. reflexivity.
Qed.

Lemma generateCommentsLoop_authors (rng : nat -> draw) aiC (input : CalendarInput)
    (postsAndPlans : list (GeneratedPost * PostPlan)) :
  forall i all counter st res st',
  (forall pp, In pp postsAndPlans -> In (author (snd pp)) (personas input)) ->
  (forall c, In c all -> In (comment_username c) (map username (personas input))) ->
  generateCommentsLoop rng aiC input i postsAndPlans all counter st = inr (res, st') ->
  forall c, In c res -> In (comment_username c) (map username (personas input)).
Proof.
  induction postsAndPlans as [|[post plan] pp IH];
    intros i all counter st res st' Hpp Hall H; simpl in H.
  - apply ret_inr in H as [-> _]. exact Hall.
  - step_bind_as H r s1 Er. step_bind_as H cps s2 Ecps.
    step_bind_as H cplans s3 Ecplans. step_bind_as H thread s4 Eth.
    destruct thread as [all' counter']. simpl in H.
    pose proof (Hpp _ (or_introl eq_refl)) as Ha. simpl in Ha.
    eapply IH; [intros; apply Hpp; right; assumption | | exact H].
    change all' with (fst (all', counter')).
    eapply generateThread_authors; [| exact Hall | exact Eth].
    intros plan' Hp. apply in_map.
    pose proof (createCommentPlans_authors _ _ _ _ _ _ _ Ecplans _ Hp) as Hin.
    destruct (selectCommentAuthors_members _ _ _ _ _ _ _ Ecps _ Hin) as [Hin'| ->];
      [exact Hin' | exact Ha].
Qed.

(** Every comment of a calendar that [generate] returns is written by one of
    the input personas. *)
Theorem generate_comment_authors (rng : nat -> draw) aiP aiC (input : CalendarInput)
    (startClock endClock : Z) (st : gen_state) cal st' :
  generate rng aiP aiC input startClock endClock st = inr (cal, st') ->
  forall c, In c (comments cal) -> In (comment_username c) (map username (personas input)).
Proof.
  intros H.
  destruct (generate_phases _ _ _ _ _ _ _ _ _ H)
    as (plans & posts0 & comments0 & s1 & s2 & s3 & s4 & Epl & _ & Ecs & Efix & _).
  pose proof (createWeeklyPostPlan_plans _ _ _ _ _ _ Epl) as Fpl.
  assert (Hc0 : forall c, In c comments0 ->
                In (comment_username c) (map username (personas input))).
  { unfold generateComments in Ecs. eapply generateCommentsLoop_authors; [| | exact Ecs].
    - intros [post plan] Hin. apply in_combine_r in Hin. simpl.
      destruct (Forall2_In_r _ _ _ _ Fpl Hin) as (i & _ & _ & Ha). exact Ha.
    - intros c []. }
  unfold fixTimestampIssues in Efix. injection Efix as _ Ec.
  intros c Hc. rewrite Ec in Hc. apply in_map_iff in Hc as (c0 & <- & Hin).
  destruct (find_post _ _); [destruct (_ <? _)|]; simpl; exact (Hc0 c0 Hin).
Qed.

(* ------------------------------------------------------------------ *)
(** ** Further properties: [getCurrentWeekStart], [calculateTextSimilarity],
    [mapICPToSubreddit] *)

(** [getCurrentWeekStart] is midnight of a Monday, not after [now] and less
    than seven days before it. *)
Theorem getCurrentWeekStart_monday (now : Z) :
  getDay (getCurrentWeekStart now) = 1 /\
  getCurrentWeekStart now mod ms_day = 0 /\
  now - 7 * ms_day < getCurrentWeekStart now <= now.
Proof.
  unfold getCurrentWeekStart.
  destruct (startOfWeek_monday now) as (E & Hday & Hb).
  split; [exact Hday|]. split.
  - rewrite E. apply Z_mod_mult.
  - rewrite E. unfold day_number in *.
    pose proof (Z.div_mod now ms_day ltac:(unfold ms_day; lia)) as Ed.
    pose proof (Z.mod_pos_bound now ms_day ltac:(unfold ms_day; lia)) as Em.
    set (q := now / ms_day) in *. set (w := startOfWeek now / ms_day) in *.
    assert (Hq : (q - 6) * ms_day <= w * ms_day <= q * ms_day)
      by (split; apply Z.mul_le_mono_nonneg_r; unfold ms_day; lia).
    unfold ms_day in *. lia.
Qed.

(** [calculateTextSimilarity] returns a ratio between 0 and 1 with a
    positive denominator: the intersection is never larger than the union. *)
Theorem calculateTextSimilarity_bounds (text1 text2 : string) :
  0 <= fst (calculateTextSimilarity text1 text2) <= snd (calculateTextSimilarity text1 text2) /\
  1 <= snd (calculateTextSimilarity text1 text2).
Proof.
  unfold calculateTextSimilarity.
  pose proof (words_of_NoDup text1) as N1.
  destruct (words_of text1) as [|a w1], (words_of text2) as [|b w2]; cbn [fst snd]; try lia.
  set (w := a :: w1) in *. set (v := b :: w2).
  assert (Hle : (length (List.filter (fun x => str_mem x v) w) <= length (dedup (w ++ v)))%nat).
  { apply List.NoDup_incl_length; [apply List.NoDup_filter, N1|].
    intros x Hx. apply filter_In in Hx as [Hx _]. apply dedup_In, in_or_app. left. exact Hx. }
  assert (Hpos : (1 <= length (dedup (w ++ v)))%nat).
  { destruct (dedup (w ++ v)) eqn:Ed; [|simpl; lia].
    assert (Ha : In a (dedup (w ++ v))) by (apply dedup_In; left; reflexivity).
    rewrite Ed in Ha. destruct Ha. }
  lia.
Qed.

Lemma lower_ascii_idem (c : ascii) : lower_ascii (lower_ascii c) = lower_ascii c.
Proof.
  destruct c as [b0 b1 b2 b3 b4 b5 b6 b7].
  destruct b0, b1, b2, b3, b4, b5, b6, b7; vm_compute; reflexivity.
Qed.

Lemma toLowerCase_idem (s : string) : toLowerCase (toLowerCase s) = toLowerCase s.
Proof. induction s as [|c s IH]; simpl; [reflexivity|]. rewrite lower_ascii_idem, IH. reflexivity. Qed.

(** [mapICPToSubreddit] ignores letter case: lower-casing the subreddit name
    first, or the company description first, does not change the segment
    found. *)
Theorem mapICPToSubreddit_case (subreddit companyDescription : string) :
  mapICPToSubreddit (toLowerCase subreddit) companyDescription
  = mapICPToSubreddit subreddit companyDescription /\
  mapICPToSubreddit subreddit (toLowerCase companyDescription)
  = mapICPToSubreddit subreddit companyDescription.
Proof. unfold mapICPToSubreddit. rewrite !toLowerCase_idem. split; reflexivity. Qed.

(* ------------------------------------------------------------------ *)
(** ** Further properties: the recorded keyword combinations *)

Lemma bump_kc (id : string) (pi : Z) (st : gen_state) u st' :
  bumpKeywordUsage id pi st = inr (u, st') -> kc st' = kc st.
Proof.
  intros H. unfold bumpKeywordUsage in H.
  step_bind_as H ks s1 Eks. unfold getKw, getsM in Eks. injection Eks as <- <-.
  step_bind_as H usage s2 Eu.
  destruct (map_get _ id); [|discriminate Eu]. injection Eu as _ <-.
  unfold putKw, modifyM in H. injection H as _ <-. reflexivity.
Qed.

Lemma init_kc (kws : list Keyword) : forall st u st',
  forM kws initKeywordUsage st = inr (u, st') -> kc st' = kc st.
Proof.
  induction kws as [|kw kws IH]; intros st u st' H; simpl in H.
  - apply ret_inr in H as [_ ->]. reflexivity.
  - step_bind_as H v s1 E1. rewrite (IH _ _ _ H).
    unfold initKeywordUsage in E1. step_bind_as E1 ks s2 Eks.
    unfold getKw, getsM in Eks. injection Eks as <- <-.
    destruct (map_has _ _).
    + apply ret_inr in E1 as [_ ->]. reflexivity.
    + unfold putKw, modifyM in E1. injection E1 as _ <-. reflexivity.
Qed.

Lemma firstPass_kc (count pi : Z) (l : list (Keyword * KeywordUsageTracker)) :
  forall sel st r st', firstPass count pi l sel st = inr (r, st') -> kc st' = kc st.
Proof.
  induction l as [|[kw u] l IH]; intros sel st r st' H; simpl in H.
  - apply ret_inr in H as [_ ->]. reflexivity.
  - destruct (_ >=? count); [apply ret_inr in H as [_ ->]; reflexivity|].
    step_bind_as H ks s1 Eks. unfold getKw, getsM in Eks. injection Eks as <- <-.
    destruct (_ || _).
    + step_bind_as H v s2 Eb. rewrite (IH _ _ _ _ H). exact (bump_kc _ _ _ _ _ Eb).
    + exact (IH _ _ _ _ H).
Qed.

Lemma secondPass_kc (count pi : Z) (l : list (Keyword * KeywordUsageTracker)) :
  forall sel st r st', secondPass count pi l sel st = inr (r, st') -> kc st' = kc st.
Proof.
  induction l as [|[kw u] l IH]; intros sel st r st' H; simpl in H.
  - apply ret_inr in H as [_ ->]. reflexivity.
  - destruct (_ >=? count); [apply ret_inr in H as [_ ->]; reflexivity|].
    destruct (negb _).
    + step_bind_as H v s2 Eb. rewrite (IH _ _ _ _ H). exact (bump_kc _ _ _ _ _ Eb).
    + exact (IH _ _ _ _ H).
Qed.

Lemma mapM_deref_state {A B} (g : A -> option B) (l : list A) : forall st w st',
  mapM (fun a => let* b := deref (g a) in retM (a, b)) l st = inr (w, st') -> st' = st.
Proof.
  induction l as [|a l IH]; intros st w st' H; simpl in H.
  - apply ret_inr in H as [_ ->]. reflexivity.
  - step_bind_as H p s1 Ep. step_bind_as H rest s2 Erest. apply ret_inr in H as [_ ->].
    step_bind_as Ep b s3 Eb. apply ret_inr in Ep as [_ ->].
    destruct (g a); [|discriminate Eb]. injection Eb as _ <-. exact (IH _ _ _ Erest).
Qed.

(** [selectKeywordsForPost] records the combination of the keywords it
    returns: the list of used combinations is unchanged when it already
    holds it, and otherwise gains it at the end. So that list never holds a
    combination twice if it did not before. *)
Theorem selectKeywordsForPost_records_combination (rng : nat -> draw)
    (availableKeywords : list Keyword) (postIndex : Z) (subreddit : string)
    (st : gen_state) r st' :
  selectKeywordsForPost rng availableKeywords postIndex subreddit st = inr (r, st') ->
  (kc st' = kc st /\ In (combination_of r) (kc st)) \/
  (kc st' = kc st ++ [combination_of r] /\ ~ In (combination_of r) (kc st)).
Proof.
  intros H. unfold selectKeywordsForPost in H.
  step_bind_as H u st1 Einit. pose proof (init_kc _ _ _ _ Einit) as K1.
  step_bind_as H d st2 Ed. unfold random in Ed. injection Ed as _ <-.
  step_bind_as H ks st3 Eks. unfold getKw, getsM in Eks. injection Eks as <- <-.
  step_bind_as H w st4 Ew. apply mapM_deref_state in Ew. subst st4.
  step_bind_as H s1 st5 E1. pose proof (firstPass_kc _ _ _ _ _ _ _ E1) as K2.
  step_bind_as H s2 st6 E2.
  assert (K3 : kc st6 = kc st5).
  { destruct (_ <? _); [exact (secondPass_kc _ _ _ _ _ _ _ E2)|].
    apply ret_inr in E2 as [_ ->]. reflexivity. }
  step_bind_as H ks' st7 Eks'. unfold getKw, getsM in Eks'. injection Eks' as <- <-.
  step_bind_as H v st8 Eput. apply ret_inr in H as [-> ->].
  unfold putKw, modifyM in Eput. injection Eput as _ <-.
  assert (Hk : keywordCombinations (keywordStrategy st6) = kc st)
    by (change (kc st6 = kc st); rewrite K3, K2; exact K1).
  unfold kc at 1 2. simpl. rewrite Hk.
  destruct (existsb (String.eqb (combination_of s2)) (kc st)) eqn:Ex.
  - left. split; [reflexivity|]. apply existsb_exists in Ex as (c & Hc & Eq).
    apply String.eqb_eq in Eq. subst c. exact Hc.
  - right. split; [reflexivity|]. intros Hin.
    assert (existsb (String.eqb (combination_of s2)) (kc st) = true)
      by (apply existsb_exists; exists (combination_of s2); split;
          [exact Hin | apply String.eqb_refl]).
    congruence.
Qed.

(* ------------------------------------------------------------------ *)
(** ** Further properties: [isOverposted], [getOverpostedSubreddits] *)

(** On a tracker whose keys are distinct and each record carries its own
    key (as [selectSubreddit] builds it), [getOverpostedSubreddits] lists
    exactly the subreddits for which [isOverposted] holds. *)
Theorem getOverpostedSubreddits_iff (t : list (string * SubredditUsageTracker)) (s : string) :
  List.NoDup (map fst t) ->
  (forall k u, In (k, u) t -> sub_subreddit u = k) ->
  In s (getOverpostedSubreddits t) <-> isOverposted t s = true.
Proof.
  intros Hnd Hkey. unfold getOverpostedSubreddits, isOverposted. split.
  - intros Hin. apply in_map_iff in Hin as (u & <- & Hu).
    apply filter_In in Hu as [Hu Hlt]. apply in_map_iff in Hu as ([k u'] & Eu & Hin).
    simpl in Eu. subst u'. rewrite (Hkey _ _ Hin).
    rewrite (In_map_get _ _ _ Hnd Hin). exact Hlt.
  - destruct (map_get t s) as [u|] eqn:Eg; [|discriminate].
    intros Hlt. apply map_get_In in Eg.
    rewrite <- (Hkey _ _ Eg). apply in_map, filter_In. split; [|exact Hlt].
    apply (in_map snd) in Eg. exact Eg.
Qed.

(* ------------------------------------------------------------------ *)
(** ** Instances of the further properties *)

Lemma validateTopicDiversity_same_title_witness :
  toLowerCase (title post_p1) = toLowerCase (title post_p2_upper) /\
  isValid (validateTopicDiversity ([] ++ post_p1 :: [] ++ post_p2_upper :: [])) = false.
Proof.
  assert (H : toLowerCase (title post_p1) = toLowerCase (title post_p2_upper))
    by (vm_compute; reflexivity).
  split; [exact H|].
  exact (proj1 (validateTopicDiversity_same_title [] [] [] post_p1 post_p2_upper H)).
Defined.

Lemma selectPostAuthor_least_posts_witness :
  [riley; jordan] <> [] /\
  exists p st', selectPostAuthor [riley; jordan] 0 init_state = inr (p, st') /\
    In p [riley; jordan].
Proof.
  assert (H : [riley; jordan] <> []) by discriminate.
  split; [exact H|].
  destruct (selectPostAuthor_least_posts [riley; jordan] 0 init_state H)
    as (p & st' & E & Hin & _).
  exists p, st'. split; [exact E | exact Hin].
Defined.

Lemma isPersonaDistributionBalanced_iff_witness :
  (forall e, In e used_tracker -> 0 <= postCount (snd e) + commentCount (snd e)) /\
  isPersonaDistributionBalanced used_tracker = true /\
  (forall e, In e used_tracker ->
     2 * (postCount (snd e) + commentCount (snd e))
     <= fold_left Z.add
          (map (fun e => postCount (snd e) + commentCount (snd e)) used_tracker) 0).
Proof.
  assert (Hnn : forall e, In e used_tracker -> 0 <= postCount (snd e) + commentCount (snd e)).
  { intros e He. simpl in He. destruct He as [<-|[<-|[<-|[]]]]; simpl; lia. }
  assert (Hb : isPersonaDistributionBalanced used_tracker = true) by (vm_compute; reflexivity).
  split; [exact Hnn|]. split; [exact Hb|].
  exact (proj1 (isPersonaDistributionBalanced_iff used_tracker Hnn) Hb).
Defined.

Lemma generate_example :
  generate rng_zero ai_post_ok ai_comment_ok example_input monday_10am monday_10am init_state
  = inr (example_calendar, run_state example_run).
Proof. vm_compute. reflexivity. Defined.

Lemma generate_posts_ids_authors_witness :
  generate rng_zero ai_post_ok ai_comment_ok example_input monday_10am monday_10am init_state
  = inr (example_calendar, run_state example_run) /\
  map post_id (posts example_calendar)
  = map post_id_of (seq 1 (Z.to_nat (postsPerWeek (company example_input)))).
Proof.
  split; [exact generate_example|].
  exact (proj1 (generate_posts_ids_authors _ _ _ _ _ _ _ _ _ generate_example)).
Defined.

Lemma generate_timing_witness :
  generate rng_zero ai_post_ok ai_comment_ok example_input monday_10am monday_10am init_state
  = inr (example_calendar, run_state example_run) /\
  (forall p, In p (posts example_calendar) -> 6 <= getHours (post_timestamp p) <= 22).
Proof.
  split; [exact generate_example|].
  exact (proj1 (generate_timing _ _ _ _ _ _ _ _ _ generate_example)).
Defined.

Lemma generate_comment_authors_witness :
  generate rng_zero ai_post_ok ai_comment_ok example_input monday_10am monday_10am init_state
  = inr (example_calendar, run_state example_run) /\
  (forall c, In c (comments example_calendar) ->
     In (comment_username c) (map username (personas example_input))).
Proof.
  split; [exact generate_example|].
  exact (generate_comment_authors _ _ _ _ _ _ _ _ _ generate_example).
Defined.

Lemma selectKeywordsForPost_records_combination_witness :
  selectKeywordsForPost rng_zero [K1; K2; K3] 0 "r/PowerPoint" init_state
  = inr (run_value [] (selectKeywordsForPost rng_zero [K1; K2; K3] 0 "r/PowerPoint" init_state),
         run_state (selectKeywordsForPost rng_zero [K1; K2; K3] 0 "r/PowerPoint" init_state)) /\
  kc (run_state (selectKeywordsForPost rng_zero [K1; K2; K3] 0 "r/PowerPoint" init_state))
  = kc init_state ++
    [combination_of (run_value [] (selectKeywordsForPost rng_zero [K1; K2; K3] 0
                                     "r/PowerPoint" init_state))].
Proof.
  assert (H : selectKeywordsForPost rng_zero [K1; K2; K3] 0 "r/PowerPoint" init_state
    = inr (run_value [] (selectKeywordsForPost rng_zero [K1; K2; K3] 0 "r/PowerPoint" init_state),
           run_state (selectKeywordsForPost rng_zero [K1; K2; K3] 0 "r/PowerPoint" init_state)))
    by (vm_compute; reflexivity).
  split; [exact H|].
  destruct (selectKeywordsForPost_records_combination _ _ _ _ _ _ _ H) as [[_ Hin]|[E _]].
  - destruct Hin.
  - exact E.
Defined.

Lemma getOverpostedSubreddits_iff_witness :
  List.NoDup (map fst overposted_tracker) /\
  (forall k u, In (k, u) overposted_tracker -> sub_subreddit u = k) /\
  getOverpostedSubreddits overposted_tracker = ["r/a"] /\
  (In "r/a" (getOverpostedSubreddits overposted_tracker) <->
   isOverposted overposted_tracker "r/a" = true).
Proof.
  assert (Hnd : List.NoDup (map fst overposted_tracker)).
  { vm_compute. constructor; [|constructor; [intros []|constructor]].
    intros [E|[]]. discriminate E. }
  assert (Hk : forall k u, In (k, u) overposted_tracker -> sub_subreddit u = k).
  { intros k u Hin. vm_compute in Hin.
    destruct Hin as [E|[E|[]]]; injection E as <- <-; reflexivity. }
  split; [exact Hnd|]. split; [exact Hk|]. split; [vm_compute; reflexivity|].
  exact (getOverpostedSubreddits_iff overposted_tracker "r/a" Hnd Hk).
Defined.
